(** * skydb: indexing, nearest-time lookup and tone mapping of sky probes

    A shallow embedding of [skydb/__init__.py].  The three classes of the
    module ([SkyDB], [SkyInterval], [SkyProbe]) become three Rocq modules of
    the same names; Python exceptions become the [Raise] branch of a small
    error monad; the directory tree the constructors scan is an explicit
    value.  Pixel values are exact rationals extended with the IEEE specials
    that numpy produces on a division by zero; rounding is not modelled
    there.  Where rounding decides a property, [tmoReinhard2002] is also
    given on a buffer of IEEE binary32 numbers, the element type of a
    decoded image. *)

From Stdlib Require Import ZArith QArith Qround Qminmax Lia Lqa List Bool.
From Stdlib Require Import Ascii String.
From Stdlib Require Import Floats.SpecFloat.
Import ListNotations.

Set Warnings "-register-all".

Local Open Scope string_scope.
Local Open Scope Z_scope.

(** ** Exceptions and the error monad *)

(** The exceptions the module can raise, with the message of the ones the
    properties tell apart. *)
Inductive exn : Type :=
| ValueError (msg : string)
| IndexError (msg : string)
| OverflowError
| ZeroDivisionError
| NotImplementedError
| FileNotFoundError (path : string)
| NotADirectoryError (path : string)
| DecodeError (path : string).

Inductive result (A : Type) : Type :=
| Ok (a : A)
| Raise (e : exn).

Arguments Ok {A} a.
Arguments Raise {A} e.

Definition bind {A B : Type} (c : result A) (k : A -> result B) : result B :=
  match c with
  | Ok a => k a
  | Raise e => Raise e
  end.

Declare Scope py_scope.
Delimit Scope py_scope with py.
Notation "x <- c ;; k" := (bind c (fun x => k))
  (at level 61, c at next level, right associativity) : py_scope.
Local Open Scope py_scope.

(** [list(map(f, xs))] for an [f] that may raise: the first exception, in
    list order, aborts the whole map. *)
Fixpoint mapM {A B : Type} (f : A -> result B) (xs : list A) : result (list B) :=
  match xs with
  | [] => Ok []
  | x :: xs' =>
      y <- f x ;;
      ys <- mapM f xs' ;;
      Ok (y :: ys)
  end.

(** ** Python sequences *)

Module Py.

(** [xs[i]] on a list, negative indices counting from the end. *)
Definition getitem {A : Type} (xs : list A) (i : Z) : result A :=
  let n := Z.of_nat (List.length xs) in
  let j := if i <? 0 then i + n else i in
  if (j <? 0) || (n <=? j) then Raise (IndexError "list index out of range")
  else match nth_error xs (Z.to_nat j) with
       | Some x => Ok x
       | None => Raise (IndexError "list index out of range")
       end.

(** [s[a:b]] on a string, for [0 <= a <= b]: never raises, truncates. *)
Definition slice (s : string) (a b : nat) : string :=
  substring a (b - a) s.

(** [s.split(sep)] for a one-character separator: the pieces between the
    separators, empty pieces kept, never an empty list. *)
Fixpoint split (sep : ascii) (s : string) : list string :=
  match s with
  | EmptyString => [EmptyString]
  | String c s' =>
      if Ascii.eqb c sep then EmptyString :: split sep s'
      else match split sep s' with
           | [] => [String c EmptyString]
           | w :: ws => String c w :: ws
           end
  end.

(** [sep.join(xs)]. *)
Fixpoint join (sep : string) (xs : list string) : string :=
  match xs with
  | [] => EmptyString
  | [x] => x
  | x :: xs' => x ++ sep ++ join sep xs'
  end.

Definition startswith (p s : string) : bool := prefix p s.

Fixpoint endswith_char (c : ascii) (s : string) : bool :=
  match s with
  | EmptyString => false
  | String d EmptyString => Ascii.eqb c d
  | String _ s' => endswith_char c s'
  end.

(** The white space [int] drops around an ASCII literal: the blank and the
    control characters 9 to 13. *)
Definition is_space (c : ascii) : bool :=
  let n := nat_of_ascii c in
  ((9 <=? n) && (n <=? 13) || (n =? 32))%nat.

Fixpoint lstrip (s : string) : string :=
  match s with
  | String c s' => if is_space c then lstrip s' else s
  | EmptyString => EmptyString
  end.

Fixpoint rstrip (s : string) : string :=
  match s with
  | EmptyString => EmptyString
  | String c s' =>
      match rstrip s' with
      | EmptyString => if is_space c then EmptyString else String c EmptyString
      | r => String c r
      end
  end.

Definition digit_of (c : ascii) : option Z :=
  let n := nat_of_ascii c in
  if ((48 <=? n) && (n <=? 57))%nat then Some (Z.of_nat n - 48) else None.

Fixpoint digits (acc : Z) (s : string) : option Z :=
  match s with
  | EmptyString => Some acc
  | String c s' =>
      match digit_of c with
      | Some d => digits (10 * acc + d) s'
      | None => None
      end
  end.

(** [int(s)] on a string of ASCII characters: surrounding white space
    dropped, an optional sign, then at least one decimal digit.  (The digit
    separator [_] is legal only between two digits, so never in the
    two-character slices this module parses; it is rejected here.  Strings
    are byte strings, so the decimal digits and blanks of other scripts,
    which [int] also takes, are out of the model.) *)
Definition int (s : string) : result Z :=
  let bad := Raise (ValueError "invalid literal for int() with base 10") in
  let t := rstrip (lstrip s) in
  let '(sign, body) :=
    match t with
    | String "-" r => (-1, r)
    | String "+" r => (1, r)
    | _ => (1, t)
    end in
  match body with
  | EmptyString => bad
  | _ => match digits 0 body with
         | Some n => Ok (sign * n)
         | None => bad
         end
  end.

End Py.

(** ** [os.path] on a POSIX system *)

Module Path.

Definition sep : ascii := "/"%char.

Definition isabs (p : string) : bool := Py.startswith "/" p.

(** [os.path.join(a, b)]. *)
Definition join (a b : string) : string :=
  if Py.startswith "/" b then b
  else if (String.eqb a "") || Py.endswith_char sep a then a ++ b
  else a ++ "/" ++ b.

(** The loop of [normpath] over the components, [acc] being [new_comps]
    in reverse. *)
Fixpoint norm_comps (initial_slashes : bool) (acc : list string)
         (comps : list string) : list string :=
  match comps with
  | [] => rev acc
  | c :: rest =>
      if (String.eqb c "") || (String.eqb c ".") then
        norm_comps initial_slashes acc rest
      else if negb (String.eqb c "..")
              || (negb initial_slashes && match acc with [] => true | _ => false end)
              || match acc with top :: _ => String.eqb top ".." | [] => false end
      then norm_comps initial_slashes (c :: acc) rest
      else norm_comps initial_slashes (tl acc) rest
  end.

(** [os.path.normpath(path)]. *)
Definition normpath (path : string) : string :=
  if String.eqb path "" then "."
  else
    let slashes :=
      if Py.startswith "/" path then
        if Py.startswith "//" path && negb (Py.startswith "///" path)
        then "//" else "/"
      else "" in
    let comps := norm_comps (Py.startswith "/" path) [] (Py.split sep path) in
    let p := slashes ++ Py.join "/" comps in
    if String.eqb p "" then "." else p.

(** [os.path.abspath(path)] with the current directory [cwd]. *)
Definition abspath (cwd path : string) : string :=
  normpath (if isabs path then path else join cwd path).

End Path.

(** ** [datetime.datetime] *)

Module Datetime.

Record t : Type := mk {
  year : Z; month : Z; day : Z;
  hour : Z; minute : Z; second : Z
}.

Definition is_leap (y : Z) : bool :=
  (y mod 4 =? 0) && (negb (y mod 100 =? 0) || (y mod 400 =? 0)).

Definition days_in_month (y m : Z) : Z :=
  if m =? 2 then (if is_leap y then 29 else 28)
  else if (m =? 4) || (m =? 6) || (m =? 9) || (m =? 11) then 30
  else 31.

Definition in_range (lo x hi : Z) : bool := (lo <=? x) && (x <=? hi).

(** The arguments are first converted to C [int]s. *)
Definition fits_C_int (x : Z) : bool := in_range (-2147483648) x 2147483647.

(** The constructor [datetime.datetime(year, month, day, hour, minute,
    second)]: an argument that is no C [int] is an [OverflowError]; then
    the date fields are checked, then hour, minute and second, each with
    its own [ValueError]. *)
Definition make (y mo d h mi s : Z) : result t :=
  if negb (forallb fits_C_int [y; mo; d; h; mi; s]) then Raise OverflowError
  else if negb (in_range 1 y 9999) then Raise (ValueError "year is out of range")
  else if negb (in_range 1 mo 12) then Raise (ValueError "month must be in 1..12")
  else if negb (in_range 1 d (days_in_month y mo))
       then Raise (ValueError "day is out of range for month")
  else if negb (in_range 0 h 23) then Raise (ValueError "hour must be in 0..23")
  else if negb (in_range 0 mi 59) then Raise (ValueError "minute must be in 0..59")
  else if negb (in_range 0 s 59) then Raise (ValueError "second must be in 0..59")
  else Ok (mk y mo d h mi s).

Definition days_before_year (y : Z) : Z :=
  let p := y - 1 in
  p * 365 + p / 4 - p / 100 + p / 400.

Definition days_before_month (y m : Z) : Z :=
  fold_right Z.add 0
    (map (days_in_month y)
         (filter (fun k => k <? m) [1; 2; 3; 4; 5; 6; 7; 8; 9; 10; 11; 12])).

Definition toordinal (a : t) : Z :=
  days_before_year (year a) + days_before_month (year a) (month a) + day a.

Definition seconds_of_day (a : t) : Z :=
  hour a * 3600 + minute a * 60 + second a.

(** [(a - b).total_seconds()]: whole seconds, as there are no
    microseconds in this module. *)
Definition sub_total_seconds (a b : t) : Z :=
  (toordinal a - toordinal b) * 86400 + (seconds_of_day a - seconds_of_day b).

End Datetime.

(** ** numpy *)

Module Np.

(** The flattened pixel buffer of a decoded image.  Its elements are
    finite; every operation below is elementwise or a reduction over the
    whole buffer, so the shape plays no part. *)
Definition ndarray : Type := list Q.

(** A computed floating-point value: finite, or one of the specials a
    division by zero or a power of zero yields. *)
Inductive float : Type :=
| Fin (q : Q)
| PosInf
| NegInf
| NaN.

Definition Qltb (a b : Q) : bool := negb (Qle_bool b a).

(** [a / b] on floats: a zero divisor gives a signed infinity, or NaN for
    [0 / 0], with a warning and no exception. *)
Definition div (a b : Q) : float :=
  if Qeq_bool b 0 then
    if Qltb 0 a then PosInf else if Qltb a 0 then NegInf else NaN
  else Fin (a / b).

(** [s * x] for a finite [s]. *)
Definition mul (s : Q) (x : float) : float :=
  match x with
  | Fin q => Fin (s * q)
  | PosInf => if Qltb 0 s then PosInf else if Qltb s 0 then NegInf else NaN
  | NegInf => if Qltb 0 s then NegInf else if Qltb s 0 then PosInf else NaN
  | NaN => NaN
  end.

Definition is_integer (e : Q) : bool := Qeq_bool e (inject_Z (Qfloor e)).

Section Power.

(** The real power [x ^ e] of a positive base, as the C library
    computes it. *)
Variable rpow : Q -> Q -> Q.

(** [np.power(x, e)] on finite floats. *)
Definition power (x e : Q) : float :=
  if Qeq_bool e 0 then Fin 1
  else if Qeq_bool x 0 then (if Qltb 0 e then Fin 0 else PosInf)
  else if Qltb 0 x then Fin (rpow x e)
  else if is_integer e then Fin (Qpower x (Qfloor e))
  else NaN.

End Power.

(** [np.clip(x, lo, hi)], that is [minimum(maximum(x, lo), hi)]: NaN goes
    through. *)
Definition clip (lo hi : Q) (x : float) : float :=
  match x with
  | Fin q => Fin (Qmin (Qmax q lo) hi)
  | PosInf => Fin hi
  | NegInf => Fin (Qmin lo hi)
  | NaN => NaN
  end.

Definition Qtrunc (q : Q) : Z :=
  if Qltb q 0 then Qceiling q else Qfloor q.

(** [x.astype('uint8')]: the fraction is dropped.  Outside [0, 256) the C
    conversion is undefined; what x86-64 gives is modelled: the integer
    wraps around, and a NaN or an infinity becomes [0]. *)
Definition astype_uint8 (x : float) : Z :=
  match x with
  | Fin q => Qtrunc q mod 256
  | _ => 0
  end.

Fixpoint map2 {A B C : Type} (f : A -> B -> C) (xs : list A) (ys : list B)
  : list C :=
  match xs, ys with
  | x :: xs', y :: ys' => f x y :: map2 f xs' ys'
  | _, _ => []
  end.

(** The error of a reduction without identity over an empty array; [op]
    is [maximum] or [minimum]. *)
Definition zero_size (op : string) : exn :=
  ValueError
    ("zero-size array to reduction operation " ++ op
     ++ " which has no identity").

(** [a.max()] and [a.min()]: a [ValueError] on an empty array. *)
Definition max (a : ndarray) : result Q :=
  match a with
  | [] => Raise (zero_size "maximum")
  | x :: r => Ok (fold_left Qmax r x)
  end.

Definition min (a : ndarray) : result Q :=
  match a with
  | [] => Raise (zero_size "minimum")
  | x :: r => Ok (fold_left Qmin r x)
  end.

Fixpoint argmin_from (best_i : nat) (best : Z) (i : nat) (xs : list Z) : nat :=
  match xs with
  | [] => best_i
  | x :: r =>
      if x <? best then argmin_from i x (S i) r
      else argmin_from best_i best (S i) r
  end.

(** [np.argmin(xs)] on a list: the first index of the least element, a
    [ValueError] on the empty list. *)
Definition argmin (xs : list Z) : result Z :=
  match xs with
  | [] => Raise (ValueError "attempt to get argmin of an empty sequence")
  | x :: r => Ok (Z.of_nat (argmin_from 0 x 1 r))
  end.

End Np.

(** ** numpy on a [float32] buffer *)

Module F32.

(** IEEE binary32: 24 bits of mantissa, infinities at exponent 128. *)
Definition prec : Z := 24.
Definition emax : Z := 128.

Definition t : Type := spec_float.

(** The [float32] nearest to an integer literal. *)
Definition of_Z (n : Z) : t := binary_normalize prec emax n 0 false.

Definition mul : t -> t -> t := SFmul prec emax.
Definition add : t -> t -> t := SFadd prec emax.
Definition div : t -> t -> t := SFdiv prec emax.
Definition ltb : t -> t -> bool := SFltb.
Definition leb : t -> t -> bool := SFleb.

(** [np.maximum] and [np.minimum]: a NaN on either side is the result. *)
Definition maximum (x y : t) : t :=
  match x, y with
  | S754_nan, _ | _, S754_nan => S754_nan
  | _, _ => if ltb x y then y else x
  end.

Definition minimum (x y : t) : t :=
  match x, y with
  | S754_nan, _ | _, S754_nan => S754_nan
  | _, _ => if ltb y x then y else x
  end.

(** [np.clip(x, lo, hi)]. *)
Definition clip (lo hi x : t) : t := minimum (maximum x lo) hi.

(** The integer part of a finite number. *)
Definition trunc (x : t) : option Z :=
  match x with
  | S754_zero _ => Some 0
  | S754_finite s m e =>
      let a := match e with
               | Zneg k => Z.shiftr (Zpos m) (Zpos k)
               | _ => Z.shiftl (Zpos m) e
               end in
      Some (if s then - a else a)
  | S754_infinity _ | S754_nan => None
  end.

(** [x.astype('uint8')], with the same reading of the undefined cases as
    [Np.astype_uint8]. *)
Definition astype_uint8 (x : t) : Z :=
  match trunc x with
  | Some n => n mod 256
  | None => 0
  end.

Definition is_zero (x : t) : bool :=
  match x with S754_zero _ => true | _ => false end.

(** A radiance that is a number and not below zero. *)
Definition nonneg_finite (x : t) : bool :=
  match x with
  | S754_zero _ | S754_finite false _ _ => true
  | _ => false
  end.

End F32.

(** ** The directory tree *)

Module FS.

(** A file carries what the environment-map decoder makes of it: its
    pixel buffer, or nothing when it holds no readable image.  The
    entries of a directory are in the order the operating system lists
    them. *)
Inductive node : Type :=
| File (content : option Np.ndarray)
| Dir (entries : list (string * node)).

Record t : Type := mk { cwd : string; root : node }.

Fixpoint lookup (name : string) (es : list (string * node)) : option node :=
  match es with
  | [] => None
  | (n, x) :: es' => if String.eqb n name then Some x else lookup name es'
  end.

(** Path resolution from [cur], whose ancestors are [up] (nearest first).
    Nothing, not even an empty component, [.] or [..], can follow a file;
    in a directory empty and [.] components are skipped and [..] of the
    root is the root. *)
Fixpoint resolve_from (up : list node) (cur : node) (comps : list string)
  : option node :=
  match comps with
  | [] => Some cur
  | c :: rest =>
      match cur with
      | File _ => None
      | Dir es =>
          if (String.eqb c "") || (String.eqb c ".") then
            resolve_from up cur rest
          else if String.eqb c ".." then
            match up with
            | [] => resolve_from [] cur rest
            | parent :: up' => resolve_from up' parent rest
            end
          else
            match lookup c es with
            | Some child => resolve_from (cur :: up) child rest
            | None => None
            end
      end
  end.

Definition resolve (fs : t) (path : string) : option node :=
  if String.eqb path "" then None
  else
    let p := if Path.isabs path then path else Path.join (cwd fs) path in
    resolve_from [] (root fs) (Py.split Path.sep p).

(** [os.listdir(path)]. *)
Definition listdir (fs : t) (path : string) : result (list string) :=
  match resolve fs path with
  | Some (Dir es) => Ok (map fst es)
  | Some (File _) => Raise (NotADirectoryError path)
  | None => Raise (FileNotFoundError path)
  end.

(** [os.path.isdir(path)]. *)
Definition isdir (fs : t) (path : string) : bool :=
  match resolve fs path with
  | Some (Dir _) => true
  | _ => false
  end.

Definition is_dir_node (x : node) : bool :=
  match x with Dir _ => true | File _ => false end.

Definition dirnames (es : list (string * node)) : list string :=
  map fst (filter (fun e => is_dir_node (snd e)) es).

Definition filenames (es : list (string * node)) : list string :=
  map fst (filter (fun e => negb (is_dir_node (snd e))) es).

(** The triples [os.walk] yields below the directory [x] named [top]:
    the directory itself first, then each subdirectory in listing
    order. *)
Fixpoint walk_node (top : string) (x : node)
  : list (string * list string * list string) :=
  match x with
  | File _ => []
  | Dir es =>
      (top, dirnames es, filenames es)
        :: flat_map (fun e => walk_node (Path.join top (fst e)) (snd e)) es
  end.

(** [os.walk(top)]: a [top] that is no directory yields nothing, the
    error being swallowed. *)
Definition walk (fs : t) (top : string)
  : list (string * list string * list string) :=
  match resolve fs top with
  | Some x => walk_node top x
  | None => []
  end.

End FS.

(** [fnmatch.filter(names, pat)] for a pattern without wildcards: the names
    equal to it. *)
Definition fnmatch_filter (names : list string) (pat : string) : list string :=
  filter (fun n => String.eqb n pat) names.

(** [EnvironmentMap(path, format_)] of the [envmap] package: decodes the
    file, and fails when there is none or it is not an image. *)
Module EnvironmentMap.

Record t : Type := mk { format_ : string; data : Np.ndarray }.

Definition init (fs : FS.t) (path : string) (fmt : string) : result t :=
  match FS.resolve fs path with
  | Some (FS.File (Some d)) => Ok (mk fmt d)
  | Some (FS.File None) => Raise (DecodeError path)
  | _ => Raise (FileNotFoundError path)
  end.

End EnvironmentMap.

(** ** class SkyProbe *)

Module SkyProbe.

Record t : Type := mk { path : string; envmap : EnvironmentMap.t }.

Definition init (fs : FS.t) (path : string) (format_ : string) : result t :=
  e <- EnvironmentMap.init fs path format_ ;;
  Ok (mk path e).

(** The constructor with its default [format_='angular']. *)
Definition init_default (fs : FS.t) (path : string) : result t :=
  init fs path "angular".

Definition sun_visible (self : t) : result bool :=
  m <- Np.max (EnvironmentMap.data (envmap self)) ;;
  Ok (Np.Qltb 5000 m).

Definition mean_light_vector (self : t) : result Np.ndarray :=
  Raise NotImplementedError.

Definition time (self : t) : result string :=
  Py.getitem (Py.split Path.sep (Path.normpath (path self))) (-2).

Definition pictureHDR (self : t) : Np.ndarray :=
  EnvironmentMap.data (envmap self).

Definition tmoReinhard2002 (self : t) (scale : Q) : list Z :=
  let data := EnvironmentMap.data (envmap self) in
  map Np.astype_uint8
    (map (Np.clip 0 255)
       (Np.map2 Np.div (map (Qmult scale) data) (map (Qplus 1) data))).

(** The call with its default [scale=700]. *)
Definition tmoReinhard2002_default (self : t) : list Z :=
  tmoReinhard2002 self 700.

(** The same method on a [float32] buffer, every operation rounding to
    binary32 as numpy does: the scalars [scale], [1.], [0.] and [255.]
    take the element type of the array. *)
Definition tmoReinhard2002_float32 (data : list F32.t) (scale : F32.t)
  : list Z :=
  map F32.astype_uint8
    (map (F32.clip (F32.of_Z 0) (F32.of_Z 255))
       (Np.map2 F32.div (map (F32.mul scale) data)
                (map (F32.add (F32.of_Z 1)) data))).

Section Gamma.

Variable rpow : Q -> Q -> Q.

Definition tmoGamma (self : t) (gamma : Q) (scale : Q) : result (list Z) :=
  m <- Np.min (EnvironmentMap.data (envmap self)) ;;
  let data := map (fun x => x - m)%Q (EnvironmentMap.data (envmap self)) in
  e <- (if Qeq_bool gamma 0 then Raise ZeroDivisionError else Ok (1 / gamma)%Q) ;;
  Ok (map Np.astype_uint8
        (map (Np.clip 0 255)
           (map (Np.mul scale) (map (fun x => Np.power rpow x e) data)))).

(** The call with its default [scale=1]. *)
Definition tmoGamma_default (self : t) (gamma : Q) : result (list Z) :=
  tmoGamma self gamma 1.

End Gamma.

End SkyProbe.

(** ** class SkyInterval *)

Module SkyInterval.

Record t : Type := mk {
  path : string;
  probes : list SkyProbe.t;
  reftimes : list Datetime.t;
  sun_visibility : Q
}.

(** The two nested loops that collect the paths of the [envmap.exr]
    files. *)
Definition matches (fs : FS.t) (path : string) : list string :=
  flat_map
    (fun '(root, _, filenames) =>
       map (fun filename => Path.join root filename)
           (fnmatch_filter filenames "envmap.exr"))
    (FS.walk fs path).

(** One element of [reftimes]; [probe.time] is read anew for each of the
    three fields. *)
Definition reftime (probe : SkyProbe.t) : result Datetime.t :=
  t1 <- SkyProbe.time probe ;;
  h <- Py.int (Py.slice t1 0 2) ;;
  t2 <- SkyProbe.time probe ;;
  mi <- Py.int (Py.slice t2 2 4) ;;
  t3 <- SkyProbe.time probe ;;
  s <- Py.int (Py.slice t3 4 6) ;;
  Datetime.make 1 1 1 h mi s.

(** [sum(1 for x in probes if x.sun_visible)]. *)
Fixpoint count_sun_visible (ps : list SkyProbe.t) : result Z :=
  match ps with
  | [] => Ok 0
  | x :: ps' =>
      v <- SkyProbe.sun_visible x ;;
      n <- count_sun_visible ps' ;;
      Ok (if v then 1 + n else n)
  end.

Definition init (fs : FS.t) (path : string) : result t :=
  ps <- mapM (SkyProbe.init_default fs) (matches fs path) ;;
  rs <- mapM reftime ps ;;
  v <- (if 0 <? Z.of_nat (List.length ps) then
          n <- count_sun_visible ps ;;
          Ok (inject_Z n / inject_Z (Z.of_nat (List.length ps)))%Q
        else Ok 0%Q) ;;
  Ok (mk path ps rs v).

Definition date (self : t) : result string :=
  Py.getitem (Py.split Path.sep (Path.normpath (path self))) (-1).

Definition closestProbe (self : t) (hours minutes seconds : Z)
  : result SkyProbe.t :=
  cmpdate <- Datetime.make 1 1 1 hours minutes seconds ;;
  idx <- Np.argmin
           (map (fun t => Z.abs (Datetime.sub_total_seconds cmpdate t))
                (reftimes self)) ;;
  Py.getitem (probes self) idx.

(** The call with its defaults [minutes=0, seconds=0]. *)
Definition closestProbe_default (self : t) (hours : Z) : result SkyProbe.t :=
  closestProbe self hours 0 0.

End SkyInterval.

(** ** class SkyDB *)

Module SkyDB.

Record t : Type := mk {
  intervals_dates : list string;
  intervals : list SkyInterval.t
}.

Definition init (fs : FS.t) (path : string) : result t :=
  let p := Path.abspath (FS.cwd fs) path in
  names <- FS.listdir fs p ;;
  let dates :=
    map (fun f => Path.join p f)
        (filter (fun f => FS.isdir fs (Path.join p f)) names) in
  ivs <- mapM (SkyInterval.init fs) dates ;;
  Ok (mk dates ivs).

End SkyDB.

(** ** Sample directory trees *)

Module Sample.

Definition image (pixels : list Q) : FS.node := FS.File (Some pixels).

Definition probe_dir (pixels : list Q) : FS.node :=
  FS.Dir [("envmap.exr", image pixels)].

(** One day with three probes, the sun saturating the first one only,
    next to a day without any probe. *)
Definition day_fs : FS.t :=
  FS.mk "/"
    (FS.Dir
       [("root",
         FS.Dir
           [("20130619",
             FS.Dir [("102639", probe_dir [6000; 12; 1 # 2]);
                     ("150000", probe_dir [4999; 5000; 3]);
                     ("183000", probe_dir [0; 1 # 4; 2])]);
            ("20130620", FS.Dir [])])])%Q.

(** An evening sequence, 19:00 and 21:00. *)
Definition evening_fs : FS.t :=
  FS.mk "/"
    (FS.Dir
       [("sky",
         FS.Dir [("190000", probe_dir [1; 2]);
                 ("210000", probe_dir [1; 2])])])%Q.

(** The tree [root/20130619/102639/envmap.exr] and nothing else, the
    image having at least the pixel [px]. *)
Definition single_fs (cwd : string) (px : Q) (pxs : list Q) : FS.t :=
  FS.mk cwd
    (FS.Dir
       [("root",
         FS.Dir [("20130619", FS.Dir [("102639", probe_dir (px :: pxs))])])]).

(** The two intervals [SkyDB] builds from [day_fs]. *)
Definition day_interval : SkyInterval.t :=
  SkyInterval.mk "/root/20130619"
    [SkyProbe.mk "/root/20130619/102639/envmap.exr"
                 (EnvironmentMap.mk "angular" [6000; 12; 1 # 2]%Q);
     SkyProbe.mk "/root/20130619/150000/envmap.exr"
                 (EnvironmentMap.mk "angular" [4999; 5000; 3]%Q);
     SkyProbe.mk "/root/20130619/183000/envmap.exr"
                 (EnvironmentMap.mk "angular" [0; 1 # 4; 2]%Q)]
    [Datetime.mk 1 1 1 10 26 39; Datetime.mk 1 1 1 15 0 0;
     Datetime.mk 1 1 1 18 30 0]
    (1 # 3)%Q.

Definition empty_interval : SkyInterval.t :=
  SkyInterval.mk "/root/20130620" [] [] 0%Q.

(** A probe over a given pixel buffer. *)
Definition probe_of (pixels : list Q) : SkyProbe.t :=
  SkyProbe.mk "/root/20130619/102639/envmap.exr"
              (EnvironmentMap.mk "angular" pixels).

Definition probe_312 : SkyProbe.t := probe_of [3; 1; 2]%Q.

Definition probe_ramp : SkyProbe.t := probe_of [0; 1 # 2; 3]%Q.

(** The second probe of [day_interval]. *)
Definition probe_150000 : SkyProbe.t :=
  SkyProbe.mk "/root/20130619/150000/envmap.exr"
              (EnvironmentMap.mk "angular" [4999; 5000; 3]%Q).

(** A day whose second probe holds a file that is no image. *)
Definition broken_fs : FS.t :=
  FS.mk "/"
    (FS.Dir
       [("root",
         FS.Dir
           [("20130619", FS.Dir [("102639", probe_dir [1; 2]%Q)]);
            ("20130620",
             FS.Dir [("090000", probe_dir [1; 2]%Q);
                     ("100000", FS.Dir [("envmap.exr", FS.File None)])]);
            ("readme.txt", FS.File None)])]).

(** Two neighbouring [float32] radiances near 0.111, the first below the
    second. *)
Definition radiance_lo : F32.t := S754_finite false 14913079 (-27).
Definition radiance_hi : F32.t := S754_finite false 14913080 (-27).

(** A stand-in for the real power, exact at whole exponents. *)
Definition integer_power (x e : Q) : Q := Qpower x (Qfloor e).

End Sample.

(** ** Vocabulary of the properties *)

(** A time of day. *)
Definition valid_time (h m s : Z) : Prop :=
  0 <= h <= 23 /\ 0 <= m <= 59 /\ 0 <= s <= 59.

(** The absolute difference, in seconds, between the time of day
    [h:m:s] and the time of day of [t]. *)
Definition tod_distance (h m s : Z) (t : Datetime.t) : Z :=
  Z.abs ((h * 3600 + m * 60 + s) - Datetime.seconds_of_day t).

(** The elapsed time between the two on the clock face, going round
    midnight when that is shorter. *)
Definition circular_distance (h m s : Z) (t : Datetime.t) : Z :=
  Z.min (tod_distance h m s t) (86400 - tod_distance h m s t).

(** [m] is the greatest (least) value of the buffer [a]. *)
Definition is_maximum (m : Q) (a : Np.ndarray) : Prop :=
  In m a /\ forall x, In x a -> (x <= m)%Q.

Definition is_minimum (m : Q) (a : Np.ndarray) : Prop :=
  In m a /\ forall x, In x a -> (m <= x)%Q.

(** The probes of a list that are classified as showing the sun. *)
Definition sun_visible_b (p : SkyProbe.t) : bool :=
  match SkyProbe.sun_visible p with
  | Ok b => b
  | Raise _ => false
  end.

Definition visible_count (ps : list SkyProbe.t) : Z :=
  Z.of_nat (List.length (filter sun_visible_b ps)).

(** The Reinhard operator on one pixel, as the specification words it:
    [clip(scale * L / (1 + L), 0, 255)], then the conversion to an
    unsigned byte. *)
Definition spec_reinhard_pixel (scale L : Q) : Z :=
  Np.astype_uint8 (Np.clip 0 255 (Np.div (scale * L) (1 + L))).

(** The gamma operator on one pixel, as the specification words it: the
    global minimum [m] subtracted, the power [1 / gamma], the scale, the
    clip and the conversion. *)
Definition spec_gamma_pixel (rpow : Q -> Q -> Q) (gamma scale m x : Q) : Z :=
  Np.astype_uint8
    (Np.clip 0 255 (Np.mul scale (Np.power rpow (x - m) (1 / gamma)))).

(** [v], found at index [i] of [l], is a least element of [l] and strictly
    below everything before [i]. *)
Definition first_min_at (l : list Z) (i : nat) (v : Z) : Prop :=
  nth_error l i = Some v /\
  (forall j w, nth_error l j = Some w -> v <= w) /\
  (forall j w, (j < i)%nat -> nth_error l j = Some w -> v < w).

(** The errors of the timestamp constructor for a field out of range. *)
Definition range_error (e : exn) : Prop :=
  e = OverflowError
  \/ e = ValueError "hour must be in 0..23"
  \/ e = ValueError "minute must be in 0..59"
  \/ e = ValueError "second must be in 0..59".

(** A name as a directory listing gives it: not empty, not [.] or [..],
    and without a separator. *)
Fixpoint has_sep (s : string) : bool :=
  match s with
  | EmptyString => false
  | String c r => Ascii.eqb c Path.sep || has_sep r
  end.

Definition plain_name (f : string) : Prop :=
  f <> "" /\ f <> "." /\ f <> ".." /\ has_sep f = false.

(** [reaches top x0 r x]: going down from the node [x0], called [top],
    entry by entry, one arrives at the node [x] under the path [r]. *)
Inductive reaches (top : string) (x0 : FS.node) : string -> FS.node -> Prop :=
| reaches_top : reaches top x0 top x0
| reaches_entry (r : string) (es : list (string * FS.node))
                (name : string) (child : FS.node) :
    reaches top x0 r (FS.Dir es) ->
    In (name, child) es ->
    reaches top x0 (Path.join r name) child.

(** * Properties *)

(** ** The error monad and [mapM] *)

Lemma bind_Ok_inv {A B : Type} (c : result A) (k : A -> result B) (b : B) :
  bind c k = Ok b -> exists a, c = Ok a /\ k a = Ok b.
Proof.
  destruct c as [a | e]; simpl; intros H; [eauto | discriminate].
Qed.

Lemma mapM_length {A B : Type} (f : A -> result B) :
  forall xs ys, mapM f xs = Ok ys -> List.length ys = List.length xs.
Proof.
  induction xs as [| x xs IH]; simpl; intros ys H.
  - injection H as <-. reflexivity.
  - apply bind_Ok_inv in H as (y & _ & H).
    apply bind_Ok_inv in H as (ys' & Hys & H).
    injection H as <-. simpl. f_equal. now apply IH.
Qed.

Lemma mapM_nth_error {A B : Type} (f : A -> result B) :
  forall xs ys i x,
    mapM f xs = Ok ys -> nth_error xs i = Some x ->
    exists y, nth_error ys i = Some y /\ f x = Ok y.
Proof.
  induction xs as [| x0 xs IH]; simpl; intros ys i x H Hi.
  - destruct i; discriminate.
  - apply bind_Ok_inv in H as (y & Hy & H).
    apply bind_Ok_inv in H as (ys' & Hys & H).
    injection H as <-.
    destruct i as [| i]; simpl in *.
    + injection Hi as <-. eauto.
    + eapply IH; eauto.
Qed.

Lemma mapM_Forall {A B : Type} (f : A -> result B) (P : B -> Prop) :
  (forall x y, f x = Ok y -> P y) ->
  forall xs ys, mapM f xs = Ok ys -> Forall P ys.
Proof.
  intros HP. induction xs as [| x xs IH]; simpl; intros ys H.
  - injection H as <-. constructor.
  - apply bind_Ok_inv in H as (y & Hy & H).
    apply bind_Ok_inv in H as (ys' & Hys & H).
    injection H as <-. constructor; eauto.
Qed.

(** ** [np.argmin] is a stable argmin *)

Lemma nth_error_snoc {A : Type} (pre : list A) (x : A) (j : nat) (w : A) :
  nth_error (pre ++ [x]) j = Some w ->
  ((j < List.length pre)%nat /\ nth_error pre j = Some w)
  \/ (j = List.length pre /\ w = x).
Proof.
  intros H.
  destruct (Nat.lt_ge_cases j (List.length pre)) as [Hlt | Hge].
  - left. split; [assumption |]. now rewrite nth_error_app1 in H.
  - right. rewrite nth_error_app2 in H by assumption.
    destruct (j - List.length pre)%nat as [| k] eqn:E; simpl in H.
    + split; [lia | congruence].
    + destruct k; discriminate.
Qed.

Lemma argmin_from_first_min :
  forall xs pre bi best,
    first_min_at pre bi best ->
    first_min_at (pre ++ xs)
                 (Np.argmin_from bi best (List.length pre) xs) best
    \/ exists v, v < best /\
         first_min_at (pre ++ xs)
                      (Np.argmin_from bi best (List.length pre) xs) v.
Proof.
  induction xs as [| x xs IH]; intros pre bi best Hinv.
  - left. simpl. now rewrite app_nil_r.
  - simpl. destruct Hinv as (Hbi & Hle & Hlt).
    assert (Hlen : List.length (pre ++ [x])%list = S (List.length pre))
      by (rewrite length_app; simpl; lia).
    assert (Hbi_lt : (bi < List.length pre)%nat)
      by (apply nth_error_Some; congruence).
    replace (pre ++ x :: xs)%list with ((pre ++ [x]) ++ xs)%list
      by (rewrite <- app_assoc; reflexivity).
    rewrite <- Hlen.
    destruct (x <? best) eqn:Hcmp.
    + apply Z.ltb_lt in Hcmp. right.
      assert (Hnew : first_min_at (pre ++ [x]) (List.length pre) x).
      { repeat split.
        - rewrite nth_error_app2 by lia. now rewrite Nat.sub_diag.
        - intros j w Hj. apply nth_error_snoc in Hj as [[_ Hj] | [_ ->]];
            [specialize (Hle _ _ Hj) |]; lia.
        - intros j w Hjlt Hj. apply nth_error_snoc in Hj as [[_ Hj] | [-> _]];
            [specialize (Hle _ _ Hj) |]; lia. }
      destruct (IH _ _ _ Hnew) as [H | (v & Hv & H)].
      * exists x. split; [lia | exact H].
      * exists v. split; [lia | exact H].
    + apply Z.ltb_ge in Hcmp.
      assert (Hold : first_min_at (pre ++ [x]) bi best).
      { repeat split.
        - now rewrite nth_error_app1.
        - intros j w Hj. apply nth_error_snoc in Hj as [[_ Hj] | [_ ->]];
            [exact (Hle _ _ Hj) | lia].
        - intros j w Hjlt Hj. apply nth_error_snoc in Hj as [[_ Hj] | [-> _]];
            [exact (Hlt _ _ Hjlt Hj) | lia]. }
      exact (IH _ _ _ Hold).
Qed.

Lemma argmin_first_min (xs : list Z) (k : Z) :
  Np.argmin xs = Ok k ->
  0 <= k /\ exists v, first_min_at xs (Z.to_nat k) v.
Proof.
  destruct xs as [| x r]; simpl; intros H; [discriminate |].
  injection H as <-. split; [lia |]. rewrite Nat2Z.id.
  assert (H0 : first_min_at [x] 0 x).
  { repeat split.
    - intros [| [| j]] w Hj; simpl in Hj; try discriminate.
      injection Hj as <-. lia.
    - intros j w Hj. lia. }
  destruct (argmin_from_first_min r [x] 0%nat x H0) as [H | (v & _ & H)];
    simpl in H; eauto.
Qed.

Lemma argmin_nonempty (xs : list Z) :
  xs <> [] -> exists k, Np.argmin xs = Ok k.
Proof.
  destruct xs as [| x r]; [congruence | simpl; eauto].
Qed.

(** ** What the constructor of an interval establishes *)

Lemma make_Ok_inv (y mo d h mi s : Z) (t : Datetime.t) :
  Datetime.make y mo d h mi s = Ok t -> t = Datetime.mk y mo d h mi s.
Proof.
  unfold Datetime.make.
  repeat match goal with
         | |- context [if ?b then _ else _] => destruct b; try discriminate
         end.
  congruence.
Qed.

Lemma in_range_true (lo x hi : Z) :
  lo <= x <= hi -> Datetime.in_range lo x hi = true.
Proof.
  intros [H1 H2]. unfold Datetime.in_range.
  apply andb_true_intro. split; now apply Z.leb_le.
Qed.

Lemma make_valid (h m s : Z) :
  valid_time h m s ->
  Datetime.make 1 1 1 h m s = Ok (Datetime.mk 1 1 1 h m s).
Proof.
  intros (Hh & Hm & Hs). unfold Datetime.make.
  cbn [forallb]. unfold Datetime.fits_C_int.
  rewrite (in_range_true _ h _), (in_range_true _ m _),
    (in_range_true _ s _) by lia.
  rewrite (in_range_true 0 h 23), (in_range_true 0 m 59),
    (in_range_true 0 s 59) by assumption.
  reflexivity.
Qed.

Lemma reftime_date (p : SkyProbe.t) (t : Datetime.t) :
  SkyInterval.reftime p = Ok t ->
  Datetime.year t = 1 /\ Datetime.month t = 1 /\ Datetime.day t = 1.
Proof.
  unfold SkyInterval.reftime. intros H.
  repeat (apply bind_Ok_inv in H as (? & _ & H)).
  apply make_Ok_inv in H. subst t. auto.
Qed.

Lemma init_fields (fs : FS.t) (path : string) (iv : SkyInterval.t) :
  SkyInterval.init fs path = Ok iv ->
  SkyInterval.path iv = path
  /\ mapM (SkyProbe.init_default fs) (SkyInterval.matches fs path)
     = Ok (SkyInterval.probes iv)
  /\ mapM SkyInterval.reftime (SkyInterval.probes iv)
     = Ok (SkyInterval.reftimes iv).
Proof.
  unfold SkyInterval.init. intros H.
  apply bind_Ok_inv in H as (ps & Hps & H).
  apply bind_Ok_inv in H as (rs & Hrs & H).
  apply bind_Ok_inv in H as (v & _ & H).
  injection H as <-. simpl. auto.
Qed.

Lemma init_parallel (fs : FS.t) (path : string) (iv : SkyInterval.t) :
  SkyInterval.init fs path = Ok iv ->
  List.length (SkyInterval.reftimes iv) = List.length (SkyInterval.probes iv).
Proof.
  intros H. apply init_fields in H as (_ & _ & H).
  now apply mapM_length in H.
Qed.

Lemma init_reftimes_date (fs : FS.t) (path : string) (iv : SkyInterval.t) :
  SkyInterval.init fs path = Ok iv ->
  Forall (fun t => Datetime.toordinal t = 1) (SkyInterval.reftimes iv).
Proof.
  intros H. apply init_fields in H as (_ & _ & H).
  revert H. apply mapM_Forall.
  intros p t Ht. apply reftime_date in Ht as (Hy & Hm & Hd).
  unfold Datetime.toordinal. rewrite Hy, Hm, Hd. reflexivity.
Qed.

(** Against a stored time of the fixed date, the seconds the code compares
    are the difference of the times of day. *)
Lemma same_date_distance (h m s : Z) (t : Datetime.t) :
  Datetime.toordinal t = 1 ->
  Z.abs (Datetime.sub_total_seconds (Datetime.mk 1 1 1 h m s) t)
  = tod_distance h m s t.
Proof.
  intros Ht. unfold Datetime.sub_total_seconds, tod_distance. rewrite Ht.
  change (Datetime.toordinal (Datetime.mk 1 1 1 h m s)) with 1.
  unfold Datetime.seconds_of_day at 1. simpl Datetime.hour.
  simpl Datetime.minute. simpl Datetime.second.
  replace ((1 - 1) * 86400) with 0 by reflexivity. reflexivity.
Qed.

Lemma getitem_nth_error {A : Type} (xs : list A) (k : Z) (x : A) :
  0 <= k -> nth_error xs (Z.to_nat k) = Some x -> Py.getitem xs k = Ok x.
Proof.
  intros Hk Hx. unfold Py.getitem.
  assert (Hlt : (Z.to_nat k < List.length xs)%nat)
    by (apply nth_error_Some; congruence).
  destruct (k <? 0) eqn:E; [apply Z.ltb_lt in E; lia |].
  rewrite E. simpl.
  destruct (Z.of_nat (List.length xs) <=? k) eqn:E2;
    [apply Z.leb_le in E2; lia |].
  now rewrite Hx.
Qed.

Lemma first_min_at_map {A : Type} (f : A -> Z) (l : list A) (i : nat) (v : Z) :
  first_min_at (map f l) i v ->
  exists a, nth_error l i = Some a /\ v = f a
    /\ (forall j b, nth_error l j = Some b -> f a <= f b)
    /\ (forall j b, (j < i)%nat -> nth_error l j = Some b -> f a < f b).
Proof.
  intros (Hi & Hle & Hlt).
  rewrite nth_error_map in Hi.
  destruct (nth_error l i) as [a |] eqn:Ha; [| discriminate].
  injection Hi as <-. exists a. repeat split.
  - intros j b Hb. apply (Hle j). rewrite nth_error_map, Hb. reflexivity.
  - intros j b Hj Hb. apply (Hlt j); [assumption |].
    rewrite nth_error_map, Hb. reflexivity.
Qed.

(** ** Nearest-time lookup *)

(** C1. In an interval with at least one probe, [closestProbe] at a time
    of day returns the probe stored at an index [i] such that the
    reference time at [i] (which is that probe's own parsed time) is at
    the least absolute distance in seconds from the query, and every
    earlier index is strictly further away. *)
Theorem closestProbe_first_nearest
        (fs : FS.t) (path : string) (iv : SkyInterval.t) (h m s : Z) :
  SkyInterval.init fs path = Ok iv ->
  SkyInterval.probes iv <> [] ->
  valid_time h m s ->
  exists (i : nat) (p : SkyProbe.t) (t : Datetime.t),
    SkyInterval.closestProbe iv h m s = Ok p
    /\ nth_error (SkyInterval.probes iv) i = Some p
    /\ nth_error (SkyInterval.reftimes iv) i = Some t
    /\ SkyInterval.reftime p = Ok t
    /\ (forall j u, nth_error (SkyInterval.reftimes iv) j = Some u ->
                    tod_distance h m s t <= tod_distance h m s u)
    /\ (forall j u, (j < i)%nat ->
                    nth_error (SkyInterval.reftimes iv) j = Some u ->
                    tod_distance h m s t < tod_distance h m s u).
Proof.
  intros Hinit Hne Hvalid.
  pose proof (init_parallel _ _ _ Hinit) as Hlen.
  pose proof (init_reftimes_date _ _ _ Hinit) as Hdate.
  apply init_fields in Hinit as (_ & _ & Hmap).
  rewrite Forall_forall in Hdate.
  unfold SkyInterval.closestProbe. rewrite (make_valid _ _ _ Hvalid). simpl.
  set (dist := fun t => Z.abs (Datetime.sub_total_seconds
                                 (Datetime.mk 1 1 1 h m s) t)).
  assert (Hdist : forall j u, nth_error (SkyInterval.reftimes iv) j = Some u ->
                              dist u = tod_distance h m s u).
  { intros j u Hu. apply same_date_distance, Hdate.
    eapply nth_error_In; eauto. }
  destruct (argmin_nonempty (map dist (SkyInterval.reftimes iv))) as [k Hk].
  { destruct (SkyInterval.reftimes iv); [| discriminate].
    destruct (SkyInterval.probes iv); [congruence | discriminate]. }
  rewrite Hk. simpl.
  apply argmin_first_min in Hk as (Hk0 & v & Hmin).
  apply first_min_at_map in Hmin as (t & Ht & _ & Hle & Hlt).
  destruct (nth_error (SkyInterval.probes iv) (Z.to_nat k)) as [p |] eqn:Hp.
  2:{ apply nth_error_None in Hp.
      assert ((Z.to_nat k < List.length (SkyInterval.reftimes iv))%nat)
        by (apply nth_error_Some; congruence).
      lia. }
  destruct (mapM_nth_error _ _ _ _ _ Hmap Hp) as (t' & Ht' & Hpt).
  assert (t' = t) by congruence. subst t'.
  exists (Z.to_nat k), p, t. repeat split; try assumption.
  - now apply getitem_nth_error.
  - intros j u Hu. rewrite <- (Hdist _ _ Ht), <- (Hdist _ _ Hu). eauto.
  - intros j u Hj Hu. rewrite <- (Hdist _ _ Ht), <- (Hdist _ _ Hu). eauto.
Qed.

(** C2. On an interval without probes [closestProbe] never returns: at a
    time of day it raises the error [np.argmin] has for an empty sequence,
    and at any arguments at all it raises. *)
Theorem closestProbe_empty_interval
        (fs : FS.t) (path : string) (iv : SkyInterval.t) (h m s : Z) :
  SkyInterval.init fs path = Ok iv ->
  SkyInterval.probes iv = [] ->
  (valid_time h m s ->
   SkyInterval.closestProbe iv h m s
   = Raise (ValueError "attempt to get argmin of an empty sequence"))
  /\ (exists e, SkyInterval.closestProbe iv h m s = Raise e).
Proof.
  intros Hinit Hempty.
  pose proof (init_parallel _ _ _ Hinit) as Hlen.
  rewrite Hempty in Hlen.
  destruct (SkyInterval.reftimes iv) as [| t r] eqn:Hr; [| discriminate].
  unfold SkyInterval.closestProbe. rewrite Hr. split.
  - intros Hvalid. now rewrite (make_valid _ _ _ Hvalid).
  - destruct (Datetime.make 1 1 1 h m s); simpl; eauto.
Qed.

(** C10. With an hour outside 0..23, a minute outside 0..59 or a second
    outside 0..59, [closestProbe] raises the range error of the timestamp
    constructor, whatever the interval holds. *)
Theorem closestProbe_out_of_range (iv : SkyInterval.t) (h m s : Z) :
  ~ valid_time h m s ->
  exists e,
    range_error e
    /\ Datetime.make 1 1 1 h m s = Raise e
    /\ SkyInterval.closestProbe iv h m s = Raise e.
Proof.
  intros Hbad. unfold SkyInterval.closestProbe, Datetime.make, range_error.
  destruct (forallb Datetime.fits_C_int [1; 1; 1; h; m; s]).
  2:{ exists OverflowError. simpl. auto. }
  change (Datetime.in_range 1 1 9999) with true.
  change (Datetime.in_range 1 1 12) with true.
  change (Datetime.in_range 1 1 (Datetime.days_in_month 1 1)) with true.
  cbv iota beta delta [negb].
  destruct (Datetime.in_range 0 h 23) eqn:Eh.
  2:{ exists (ValueError "hour must be in 0..23"). simpl. auto. }
  destruct (Datetime.in_range 0 m 59) eqn:Em.
  2:{ exists (ValueError "minute must be in 0..59"). simpl. auto. }
  destruct (Datetime.in_range 0 s 59) eqn:Es.
  2:{ exists (ValueError "second must be in 0..59"). simpl. auto 6. }
  exfalso. apply Hbad. unfold valid_time, Datetime.in_range in *.
  apply andb_prop in Eh as [H1 H2], Em as [H3 H4], Es as [H5 H6].
  apply Z.leb_le in H1, H2, H3, H4, H5, H6. lia.
Qed.

(** C9. [mean_light_vector] raises [NotImplementedError] on every probe. *)
Theorem mean_light_vector_not_implemented (p : SkyProbe.t) :
  SkyProbe.mean_light_vector p = Raise NotImplementedError.
Proof. reflexivity. Qed.

(** C6. There are stored probe times and a query for which the probe
    [closestProbe] returns is further from the query, round the clock,
    than another stored probe: against probes at 19:00 and 21:00 the
    query 06:00 gets the 19:00 one, 11 hours away, though 21:00 is 9
    hours away. *)
Theorem closestProbe_ignores_midnight :
  exists (fs : FS.t) (path : string) (iv : SkyInterval.t) (h m s : Z)
         (p q : SkyProbe.t) (tp tq : Datetime.t),
    SkyInterval.init fs path = Ok iv
    /\ valid_time h m s
    /\ SkyInterval.closestProbe iv h m s = Ok p
    /\ In q (SkyInterval.probes iv)
    /\ SkyInterval.reftime p = Ok tp
    /\ SkyInterval.reftime q = Ok tq
    /\ Datetime.toordinal tp = Datetime.toordinal tq
    /\ circular_distance h m s tq < circular_distance h m s tp.
Proof.
  set (p19 := SkyProbe.mk "/sky/190000/envmap.exr"
                          (EnvironmentMap.mk "angular" [1; 2]%Q)).
  set (p21 := SkyProbe.mk "/sky/210000/envmap.exr"
                          (EnvironmentMap.mk "angular" [1; 2]%Q)).
  exists Sample.evening_fs, "/sky",
    (SkyInterval.mk "/sky" [p19; p21]
       [Datetime.mk 1 1 1 19 0 0; Datetime.mk 1 1 1 21 0 0] (0 # 2)),
    6, 0, 0, p19, p21, (Datetime.mk 1 1 1 19 0 0), (Datetime.mk 1 1 1 21 0 0).
  repeat split; try reflexivity; try (unfold valid_time; lia).
  simpl. auto.
Qed.

Lemma day_interval_built :
  SkyDB.init Sample.day_fs "root"
  = Ok (SkyDB.mk ["/root/20130619"; "/root/20130620"]
                 [Sample.day_interval; Sample.empty_interval]).
Proof. vm_compute. reflexivity. Qed.

Lemma closestProbe_first_nearest_witness :
  exists (i : nat) (p : SkyProbe.t) (t : Datetime.t),
    SkyInterval.closestProbe Sample.day_interval 10 30 0 = Ok p
    /\ nth_error (SkyInterval.probes Sample.day_interval) i = Some p
    /\ nth_error (SkyInterval.reftimes Sample.day_interval) i = Some t
    /\ SkyInterval.reftime p = Ok t
    /\ (forall j u,
           nth_error (SkyInterval.reftimes Sample.day_interval) j = Some u ->
           tod_distance 10 30 0 t <= tod_distance 10 30 0 u)
    /\ (forall j u, (j < i)%nat ->
           nth_error (SkyInterval.reftimes Sample.day_interval) j = Some u ->
           tod_distance 10 30 0 t < tod_distance 10 30 0 u).
Proof.
  apply (closestProbe_first_nearest Sample.day_fs "/root/20130619"
                                    Sample.day_interval 10 30 0).
  - vm_compute. reflexivity.
  - discriminate.
  - unfold valid_time. lia.
Defined.

Lemma closestProbe_empty_interval_witness :
  SkyInterval.closestProbe Sample.empty_interval 10 30 0
  = Raise (ValueError "attempt to get argmin of an empty sequence").
Proof.
  apply (closestProbe_empty_interval Sample.day_fs "/root/20130620"
                                     Sample.empty_interval 10 30 0).
  - vm_compute. reflexivity.
  - reflexivity.
  - unfold valid_time. lia.
Defined.

Lemma closestProbe_out_of_range_witness :
  exists e,
    range_error e
    /\ Datetime.make 1 1 1 10 60 0 = Raise e
    /\ SkyInterval.closestProbe Sample.day_interval 10 60 0 = Raise e.
Proof.
  apply (closestProbe_out_of_range Sample.day_interval 10 60 0).
  unfold valid_time. lia.
Defined.

(** ** Sun visibility *)

Lemma fold_left_Qmax_is_maximum (r : list Q) (x : Q) :
  is_maximum (fold_left Qmax r x) (x :: r).
Proof.
  revert x. induction r as [| y r IH]; intros x.
  - simpl. split; [now left |].
    intros z [<- | []]. apply Qle_refl.
  - simpl fold_left. destruct (IH (Qmax x y)) as (Hin & Hub). split.
    + destruct Hin as [Heq | Hin]; [| right; now right].
      rewrite <- Heq. unfold Qmax, GenericMinMax.gmax.
      destruct (x ?= y)%Q; simpl; auto.
    + intros z [<- | [<- | Hz]].
      * apply Qle_trans with (Qmax x y); [apply Q.le_max_l |].
        apply Hub. now left.
      * apply Qle_trans with (Qmax x y); [apply Q.le_max_r |].
        apply Hub. now left.
      * apply Hub. now right.
Qed.

Lemma max_is_maximum (a : Np.ndarray) (m : Q) :
  Np.max a = Ok m -> is_maximum m a.
Proof.
  destruct a as [| x r]; simpl; intros H; [discriminate |].
  injection H as <-. apply fold_left_Qmax_is_maximum.
Qed.

Lemma is_maximum_unique (a : Np.ndarray) (m m' : Q) :
  is_maximum m a -> is_maximum m' a -> (m == m')%Q.
Proof.
  intros (Hin & Hub) (Hin' & Hub'). apply Qle_antisym; auto.
Qed.

Lemma Qltb_lt (a b : Q) : Np.Qltb a b = true <-> (a < b)%Q.
Proof.
  unfold Np.Qltb. rewrite negb_true_iff. split.
  - intros H. apply Qnot_le_lt. intros Hle.
    apply Qle_bool_iff in Hle. congruence.
  - intros H. destruct (Qle_bool b a) eqn:E; [| reflexivity].
    apply Qle_bool_iff in E. exfalso. now apply (Qlt_not_le a b).
Qed.

Lemma sun_visible_iff (p : SkyProbe.t) :
  SkyProbe.sun_visible p = Ok true
  <-> exists m, is_maximum m (SkyProbe.pictureHDR p) /\ (5000 < m)%Q.
Proof.
  unfold SkyProbe.sun_visible, SkyProbe.pictureHDR.
  destruct (Np.max (EnvironmentMap.data (SkyProbe.envmap p))) as [m | e] eqn:E;
    simpl.
  - apply max_is_maximum in E. split.
    + intros H. injection H as H. apply Qltb_lt in H. eauto.
    + intros (m' & Hm' & Hlt). f_equal. apply Qltb_lt.
      now rewrite (is_maximum_unique _ _ _ E Hm').
  - split; [discriminate |].
    intros (m' & (Hin & _) & _).
    destruct (EnvironmentMap.data (SkyProbe.envmap p)); [destruct Hin |].
    discriminate.
Qed.

Lemma count_sun_visible_filter (ps : list SkyProbe.t) (n : Z) :
  SkyInterval.count_sun_visible ps = Ok n -> n = visible_count ps.
Proof.
  unfold visible_count. revert n.
  induction ps as [| p ps IH]; intros n H.
  - simpl in H. now injection H as <-.
  - cbn [SkyInterval.count_sun_visible] in H.
    apply bind_Ok_inv in H as (v & Hv & H).
    apply bind_Ok_inv in H as (k & Hk & H).
    assert (Hn : n = if v then 1 + k else k) by congruence.
    rewrite Hn, (IH _ Hk). clear H Hn.
    assert (Hb : sun_visible_b p = v)
      by (unfold sun_visible_b; now rewrite Hv).
    cbn [filter]. rewrite Hb.
    destruct v; [| reflexivity].
    change (List.length (p :: filter sun_visible_b ps))
      with (S (List.length (filter sun_visible_b ps))).
    rewrite Nat2Z.inj_succ. lia.
Qed.

(** C5. The [sun_visibility] of a constructed interval is the number of
    its probes with [sun_visible], that is with a maximum pixel above
    5000, over the number of its probes, and 0 when it has none; one
    probe in three gives one third. *)
Theorem sun_visibility_fraction
        (fs : FS.t) (path : string) (iv : SkyInterval.t) :
  SkyInterval.init fs path = Ok iv ->
  (forall p, sun_visible_b p = true
             <-> exists m, is_maximum m (SkyProbe.pictureHDR p) /\ (5000 < m)%Q)
  /\ SkyInterval.sun_visibility iv
     = match SkyInterval.probes iv with
       | [] => 0%Q
       | _ :: _ =>
           (inject_Z (visible_count (SkyInterval.probes iv))
            / inject_Z (Z.of_nat (List.length (SkyInterval.probes iv))))%Q
       end
  /\ (List.length (SkyInterval.probes iv) = 3%nat ->
      visible_count (SkyInterval.probes iv) = 1 ->
      SkyInterval.sun_visibility iv = (1 # 3)%Q).
Proof.
  intros Hinit.
  assert (Hiff : forall p, sun_visible_b p = true
             <-> exists m, is_maximum m (SkyProbe.pictureHDR p) /\ (5000 < m)%Q).
  { intros p. rewrite <- sun_visible_iff. unfold sun_visible_b.
    destruct (SkyProbe.sun_visible p) as [b | e]; split; congruence. }
  assert (Hfrac : SkyInterval.sun_visibility iv
     = match SkyInterval.probes iv with
       | [] => 0%Q
       | _ :: _ =>
           (inject_Z (visible_count (SkyInterval.probes iv))
            / inject_Z (Z.of_nat (List.length (SkyInterval.probes iv))))%Q
       end).
  { unfold SkyInterval.init in Hinit.
    apply bind_Ok_inv in Hinit as (ps & _ & H).
    apply bind_Ok_inv in H as (rs & _ & H).
    apply bind_Ok_inv in H as (v & Hv & H).
    injection H as <-. simpl.
    destruct ps as [| p ps]; simpl in Hv.
    - now injection Hv as <-.
    - change (0 <? Z.pos (Pos.of_succ_nat (List.length ps))) with true in Hv.
      cbv iota in Hv.
      apply bind_Ok_inv in Hv as (n & Hn & Hv).
      injection Hv as <-.
      change (SkyInterval.count_sun_visible (p :: ps) = Ok n) in Hn.
      now rewrite (count_sun_visible_filter _ _ Hn). }
  repeat split; try apply Hiff; try assumption.
  intros Hlen Hcount. rewrite Hfrac.
  destruct (SkyInterval.probes iv) as [| p ps]; [discriminate |].
  rewrite Hcount, Hlen. reflexivity.
Qed.

Lemma sun_visibility_fraction_witness :
  SkyInterval.sun_visibility Sample.day_interval = (1 # 3)%Q.
Proof.
  apply (sun_visibility_fraction Sample.day_fs "/root/20130619"
                                 Sample.day_interval).
  - vm_compute. reflexivity.
  - reflexivity.
  - reflexivity.
Defined.

(** ** Scanning a tree *)

(** C8. From the tree [root/20130619/102639/envmap.exr] the database
    builds exactly one interval, of date ["20130619"], holding exactly one
    probe, of time ["102639"]; both names are read off the stored paths. *)
Theorem single_probe_tree (cwd : string) (px : Q) (pxs : list Q) :
  exists (iv : SkyInterval.t) (p : SkyProbe.t),
    SkyDB.init (Sample.single_fs cwd px pxs) "/root"
    = Ok (SkyDB.mk ["/root/20130619"] [iv])
    /\ SkyDB.init (Sample.single_fs "/" px pxs) "root"
       = Ok (SkyDB.mk ["/root/20130619"] [iv])
    /\ SkyInterval.path iv = "/root/20130619"
    /\ SkyInterval.date iv = Ok "20130619"
    /\ SkyInterval.probes iv = [p]
    /\ SkyProbe.path p = "/root/20130619/102639/envmap.exr"
    /\ SkyProbe.time p = Ok "102639".
Proof.
  eexists. eexists. split; [vm_compute; reflexivity |].
  split; [vm_compute; reflexivity |].
  repeat split.
Qed.

(** ** Tone mapping *)

Lemma map2_map_map {A B C D : Type} (f : B -> C -> D) (g : A -> B) (h : A -> C) :
  forall l, Np.map2 f (map g l) (map h l) = map (fun x => f (g x) (h x)) l.
Proof.
  induction l as [| x l IH]; simpl; [reflexivity | now rewrite IH].
Qed.

(** The broadcast operations of [tmoReinhard2002] fuse into one pass over
    the buffer. *)
Lemma tmoReinhard2002_map (p : SkyProbe.t) (s : Q) :
  SkyProbe.tmoReinhard2002 p s
  = map (spec_reinhard_pixel s) (SkyProbe.pictureHDR p).
Proof.
  unfold SkyProbe.tmoReinhard2002, SkyProbe.pictureHDR.
  now rewrite map2_map_map, !map_map.
Qed.

(** C3. [tmoReinhard2002] is, pixel by pixel,
    [clip(scale * L / (1 + L), 0, 255)] converted to an unsigned byte, and
    its default scale is 700. *)
Theorem tmoReinhard2002_elementwise (p : SkyProbe.t) (scale : Q) :
  SkyProbe.tmoReinhard2002 p scale
  = map (spec_reinhard_pixel scale) (SkyProbe.pictureHDR p)
  /\ SkyProbe.tmoReinhard2002_default p
     = map (spec_reinhard_pixel 700) (SkyProbe.pictureHDR p).
Proof.
  split; [apply tmoReinhard2002_map | apply (tmoReinhard2002_map p 700%Q)].
Qed.

Lemma fold_left_Qmin_is_minimum (r : list Q) (x : Q) :
  is_minimum (fold_left Qmin r x) (x :: r).
Proof.
  revert x. induction r as [| y r IH]; intros x.
  - simpl. split; [now left |].
    intros z [<- | []]. apply Qle_refl.
  - simpl fold_left. destruct (IH (Qmin x y)) as (Hin & Hlb). split.
    + destruct Hin as [Heq | Hin]; [| right; now right].
      rewrite <- Heq. unfold Qmin, GenericMinMax.gmin.
      destruct (x ?= y)%Q; simpl; auto.
    + intros z [<- | [<- | Hz]].
      * apply Qle_trans with (Qmin x y); [| apply Q.le_min_l].
        apply Hlb. now left.
      * apply Qle_trans with (Qmin x y); [| apply Q.le_min_r].
        apply Hlb. now left.
      * apply Hlb. now right.
Qed.

Lemma min_is_minimum (a : Np.ndarray) (m : Q) :
  Np.min a = Ok m -> is_minimum m a.
Proof.
  destruct a as [| x r]; simpl; intros H; [discriminate |].
  injection H as <-. apply fold_left_Qmin_is_minimum.
Qed.

Lemma Qltb_ge (a b : Q) : Np.Qltb a b = false <-> (b <= a)%Q.
Proof.
  unfold Np.Qltb. rewrite negb_false_iff. apply Qle_bool_iff.
Qed.

Lemma Qeq_bool_false (a b : Q) : ~ (a == b)%Q -> Qeq_bool a b = false.
Proof.
  intros H. destruct (Qeq_bool a b) eqn:E; [| reflexivity].
  apply Qeq_bool_iff in E. contradiction.
Qed.

Lemma Qtrunc_zero (q : Q) : (q == 0)%Q -> Np.Qtrunc q = 0.
Proof.
  intros H. unfold Np.Qtrunc.
  assert (E : Np.Qltb q 0 = false) by (apply Qltb_ge; rewrite H; apply Qle_refl).
  rewrite E, H. reflexivity.
Qed.

Lemma clip_Fin_zero (q : Q) :
  (q == 0)%Q -> exists c, Np.clip 0 255 (Np.Fin q) = Np.Fin c /\ (c == 0)%Q.
Proof.
  intros H. simpl. eexists. split; [reflexivity |].
  rewrite H. reflexivity.
Qed.

(** The whole gamma pipeline sends a pixel equal to the minimum to 0 when
    the exponent is positive. *)
Lemma spec_gamma_pixel_min (rpow : Q -> Q -> Q) (gamma scale m x : Q) :
  (0 < gamma)%Q -> (x == m)%Q -> spec_gamma_pixel rpow gamma scale m x = 0.
Proof.
  intros Hg Hx. unfold spec_gamma_pixel, Np.power.
  assert (He : (0 < 1 / gamma)%Q).
  { unfold Qdiv. rewrite Qmult_1_l. now apply Qinv_lt_0_compat. }
  assert (E1 : Qeq_bool (1 / gamma) 0 = false).
  { apply Qeq_bool_false. intros H. rewrite H in He.
    now apply (Qlt_irrefl 0). }
  assert (E2 : Qeq_bool (x - m) 0 = true).
  { apply Qeq_bool_iff. rewrite Hx. ring. }
  assert (E3 : Np.Qltb 0 (1 / gamma) = true) by now apply Qltb_lt.
  rewrite E1, E2, E3. cbn [Np.mul].
  destruct (clip_Fin_zero (scale * 0)) as (c & Hc & Hc0); [ring |].
  rewrite Hc. cbn [Np.astype_uint8]. now rewrite (Qtrunc_zero _ Hc0).
Qed.

(** C4. For a gamma other than 0, [tmoGamma] is: the global minimum of
    the buffer subtracted from every pixel, the power [1 / gamma], the
    scale, the clip to [0, 255] and the conversion to an unsigned byte;
    with a positive gamma a pixel of minimum value comes out as 0. *)
Theorem tmoGamma_elementwise
        (rpow : Q -> Q -> Q) (p : SkyProbe.t) (gamma scale : Q) :
  ~ (gamma == 0)%Q ->
  SkyProbe.tmoGamma rpow p gamma scale
  = (m <- Np.min (SkyProbe.pictureHDR p) ;;
     Ok (map (spec_gamma_pixel rpow gamma scale m) (SkyProbe.pictureHDR p)))
  /\ (SkyProbe.pictureHDR p <> [] ->
      exists m out,
        is_minimum m (SkyProbe.pictureHDR p)
        /\ Np.min (SkyProbe.pictureHDR p) = Ok m
        /\ SkyProbe.tmoGamma rpow p gamma scale = Ok out
        /\ List.length out = List.length (SkyProbe.pictureHDR p)
        /\ ((0 < gamma)%Q ->
            forall i x, nth_error (SkyProbe.pictureHDR p) i = Some x ->
                        (x == m)%Q -> nth_error out i = Some 0))
  /\ SkyProbe.tmoGamma_default rpow p gamma
     = SkyProbe.tmoGamma rpow p gamma 1.
Proof.
  intros Hg.
  assert (Eg : Qeq_bool gamma 0 = false) by now apply Qeq_bool_false.
  assert (Heq : SkyProbe.tmoGamma rpow p gamma scale
    = (m <- Np.min (SkyProbe.pictureHDR p) ;;
       Ok (map (spec_gamma_pixel rpow gamma scale m) (SkyProbe.pictureHDR p)))).
  { unfold SkyProbe.tmoGamma, SkyProbe.pictureHDR. rewrite Eg.
    destruct (Np.min (EnvironmentMap.data (SkyProbe.envmap p))) as [m | e];
      simpl; [| reflexivity].
    now rewrite !map_map. }
  split; [exact Heq |]. split; [| reflexivity].
  intros Hne. rewrite Heq.
  destruct (Np.min (SkyProbe.pictureHDR p)) as [m | e] eqn:Hm.
  2:{ destruct (SkyProbe.pictureHDR p); [congruence | discriminate]. }
  exists m, (map (spec_gamma_pixel rpow gamma scale m) (SkyProbe.pictureHDR p)).
  repeat split; try (now apply min_is_minimum); try apply (min_is_minimum _ _ Hm).
  - now rewrite length_map.
  - intros Hpos i x Hi Hx. rewrite nth_error_map, Hi. simpl.
    now rewrite spec_gamma_pixel_min.
Qed.

Lemma tmoGamma_elementwise_witness :
  exists m out,
    is_minimum m (SkyProbe.pictureHDR Sample.probe_312)
    /\ Np.min (SkyProbe.pictureHDR Sample.probe_312) = Ok m
    /\ SkyProbe.tmoGamma Sample.integer_power Sample.probe_312 (1 # 2) 100
       = Ok out
    /\ List.length out = List.length (SkyProbe.pictureHDR Sample.probe_312)
    /\ ((0 < 1 # 2)%Q ->
        forall i x,
          nth_error (SkyProbe.pictureHDR Sample.probe_312) i = Some x ->
          (x == m)%Q -> nth_error out i = Some 0).
Proof.
  apply (tmoGamma_elementwise Sample.integer_power Sample.probe_312
                              (1 # 2) 100).
  - intros H. discriminate H.
  - discriminate.
Defined.

(** On one pixel the Reinhard operator stays within a byte. *)
Lemma spec_reinhard_pixel_range (s L : Q) : 0 <= spec_reinhard_pixel s L <= 255.
Proof.
  unfold spec_reinhard_pixel.
  destruct (Np.clip 0 255 (Np.div (s * L) (1 + L))) as [q | | |];
    simpl; try lia.
  pose proof (Z.mod_pos_bound (Np.Qtrunc q) 256 eq_refl). lia.
Qed.

(** A value clipped to [0, 255] is converted by taking its floor. *)
Lemma astype_uint8_clipped (q : Q) :
  Np.astype_uint8 (Np.clip 0 255 (Np.Fin q)) = Qfloor (Qmin (Qmax q 0) 255).
Proof.
  cbn [Np.clip Np.astype_uint8].
  set (c := Qmin (Qmax q 0) 255).
  assert (H0 : (0 <= c)%Q).
  { unfold c. apply Q.min_glb; [apply Q.le_max_r | discriminate]. }
  assert (H255 : (c <= 255)%Q) by (unfold c; apply Q.le_min_r).
  unfold Np.Qtrunc.
  assert (E : Np.Qltb c 0 = false) by now apply Qltb_ge.
  rewrite E. apply Z.mod_small.
  pose proof (Qfloor_resp_le _ _ H0) as Hlo.
  pose proof (Qfloor_resp_le _ _ H255) as Hhi.
  change (Qfloor 0) with 0 in Hlo. change (Qfloor 255) with 255 in Hhi. lia.
Qed.

Lemma spec_reinhard_pixel_zero (s L : Q) :
  (L == 0)%Q -> spec_reinhard_pixel s L = 0.
Proof.
  intros HL. unfold spec_reinhard_pixel, Np.div.
  assert (E : Qeq_bool (1 + L) 0 = false)
    by (apply Qeq_bool_false; intros H; lra).
  rewrite E, astype_uint8_clipped.
  assert (Hq : (s * L / (1 + L) == 0)%Q).
  { rewrite HL. unfold Qdiv. ring. }
  rewrite Hq. reflexivity.
Qed.

(** The operator on one [float32] pixel. *)
Lemma tmoReinhard2002_float32_map (data : list F32.t) (s : F32.t) :
  SkyProbe.tmoReinhard2002_float32 data s
  = map (fun L => F32.astype_uint8
                    (F32.clip (F32.of_Z 0) (F32.of_Z 255)
                       (F32.div (F32.mul s L) (F32.add (F32.of_Z 1) L))))
        data.
Proof.
  unfold SkyProbe.tmoReinhard2002_float32.
  now rewrite map2_map_map, !map_map.
Qed.

Lemma float32_astype_uint8_range (x : F32.t) : 0 <= F32.astype_uint8 x <= 255.
Proof.
  unfold F32.astype_uint8. destruct (F32.trunc x) as [n |]; [| lia].
  pose proof (Z.mod_pos_bound n 256 eq_refl). lia.
Qed.

Lemma float32_pixel_zero (s L : F32.t) :
  F32.ltb (F32.of_Z 0) s = true -> F32.is_zero L = true ->
  F32.astype_uint8
    (F32.clip (F32.of_Z 0) (F32.of_Z 255)
       (F32.div (F32.mul s L) (F32.add (F32.of_Z 1) L))) = 0.
Proof.
  intros Hs HL.
  destruct L as [b | | |]; try discriminate.
  destruct s as [sb | sb | | sb m e]; try discriminate;
    destruct sb; try discriminate; destruct b; reflexivity.
Qed.

(** C7, as it is stated, fails on its monotonicity, in two ways.  Across
    the pole of [L / (1 + L)]: the radiance [-2] is below the radiance [0],
    yet at scale 700 it comes out as 255 and [0] comes out as 0.  And on
    non-negative radiance, by rounding: of two neighbouring [float32]
    radiances near 0.111 the lower comes out as 70 and the higher as 69. *)
Lemma tmoReinhard2002_not_monotone :
  ~ (forall (s : Q) (a b : Np.ndarray),
        (0 < s)%Q -> Forall2 Qle a b ->
        Forall2 Z.le (SkyProbe.tmoReinhard2002 (Sample.probe_of a) s)
                     (SkyProbe.tmoReinhard2002 (Sample.probe_of b) s))
  /\ ~ (forall (s : F32.t) (a b : list F32.t),
           F32.ltb (F32.of_Z 0) s = true ->
           Forall (fun L => F32.nonneg_finite L = true) a ->
           Forall (fun L => F32.nonneg_finite L = true) b ->
           Forall2 (fun x y => F32.leb x y = true) a b ->
           Forall2 Z.le (SkyProbe.tmoReinhard2002_float32 a s)
                        (SkyProbe.tmoReinhard2002_float32 b s)).
Proof.
  split; intros H.
  - specialize (H 700%Q [(-2)%Q] [0%Q] eq_refl).
    assert (Hle : Forall2 Qle [(-2)%Q] [0%Q])
      by (constructor; [discriminate | constructor]).
    specialize (H Hle). vm_compute in H.
    inversion H as [| x y l l' Hxy _]; subst. now apply Hxy.
  - specialize (H (F32.of_Z 700) [Sample.radiance_lo] [Sample.radiance_hi]
                  eq_refl).
    assert (Hlo : Forall (fun L => F32.nonneg_finite L = true)
                         [Sample.radiance_lo])
      by (constructor; [reflexivity | constructor]).
    assert (Hhi : Forall (fun L => F32.nonneg_finite L = true)
                         [Sample.radiance_hi])
      by (constructor; [reflexivity | constructor]).
    assert (Hle : Forall2 (fun x y => F32.leb x y = true)
                          [Sample.radiance_lo] [Sample.radiance_hi])
      by (constructor; [reflexivity | constructor]).
    specialize (H Hlo Hhi Hle). vm_compute in H.
    inversion H as [| x y l l' Hxy _]; subst. now apply Hxy.
Qed.

(** C7, amended. At a positive scale every byte of [tmoReinhard2002] is
    within 0..255 and a pixel of radiance 0 comes out as 0, in exact
    arithmetic and on a [float32] buffer alike; nothing is said of
    monotonicity. *)
Theorem tmoReinhard2002_range_zero
        (p : SkyProbe.t) (s : Q) (data : list F32.t) (s32 : F32.t) :
  (0 < s)%Q ->
  F32.ltb (F32.of_Z 0) s32 = true ->
  (Forall (fun v => 0 <= v <= 255) (SkyProbe.tmoReinhard2002 p s)
   /\ forall i L,
       nth_error (SkyProbe.pictureHDR p) i = Some L -> (L == 0)%Q ->
       nth_error (SkyProbe.tmoReinhard2002 p s) i = Some 0)
  /\ (Forall (fun v => 0 <= v <= 255) (SkyProbe.tmoReinhard2002_float32 data s32)
      /\ forall i L,
          nth_error data i = Some L -> F32.is_zero L = true ->
          nth_error (SkyProbe.tmoReinhard2002_float32 data s32) i = Some 0).
Proof.
  intros Hs Hs32. repeat split.
  - rewrite tmoReinhard2002_map. apply Forall_map, Forall_forall.
    intros L _. apply spec_reinhard_pixel_range.
  - intros i L Hi HL. rewrite tmoReinhard2002_map, nth_error_map, Hi. simpl.
    now rewrite spec_reinhard_pixel_zero.
  - rewrite tmoReinhard2002_float32_map. apply Forall_map, Forall_forall.
    intros L _. apply float32_astype_uint8_range.
  - intros i L Hi HL.
    rewrite tmoReinhard2002_float32_map, nth_error_map, Hi. cbn [option_map].
    now rewrite float32_pixel_zero.
Qed.

Lemma tmoReinhard2002_range_zero_witness :
  (Forall (fun v => 0 <= v <= 255)
          (SkyProbe.tmoReinhard2002 Sample.probe_ramp 700)
   /\ forall i L,
       nth_error (SkyProbe.pictureHDR Sample.probe_ramp) i = Some L ->
       (L == 0)%Q ->
       nth_error (SkyProbe.tmoReinhard2002 Sample.probe_ramp 700) i = Some 0)
  /\ (Forall (fun v => 0 <= v <= 255)
             (SkyProbe.tmoReinhard2002_float32
                [F32.of_Z 0; Sample.radiance_lo] (F32.of_Z 700))
      /\ forall i L,
          nth_error [F32.of_Z 0; Sample.radiance_lo] i = Some L ->
          F32.is_zero L = true ->
          nth_error (SkyProbe.tmoReinhard2002_float32
                       [F32.of_Z 0; Sample.radiance_lo] (F32.of_Z 700)) i
          = Some 0).
Proof.
  apply (tmoReinhard2002_range_zero Sample.probe_ramp 700
           [F32.of_Z 0; Sample.radiance_lo] (F32.of_Z 700));
    reflexivity.
Defined.

(** * Further properties of the code *)

(** ** Construction: what is kept, what aborts *)

Lemma mapM_Raise {A B : Type} (f : A -> result B) :
  forall xs x e, In x xs -> f x = Raise e -> exists e', mapM f xs = Raise e'.
Proof.
  induction xs as [| x0 xs IH]; simpl; intros x e Hin Hx; [contradiction |].
  destruct Hin as [-> | Hin].
  - rewrite Hx. simpl. eauto.
  - destruct (f x0) as [y |]; simpl; [| eauto].
    destruct (IH _ _ Hin Hx) as (e' & ->). simpl. eauto.
Qed.

Lemma mapM_In {A B : Type} (f : A -> result B) :
  forall xs ys y, mapM f xs = Ok ys -> In y ys ->
                  exists x, In x xs /\ f x = Ok y.
Proof.
  induction xs as [| x0 xs IH]; simpl; intros ys y H Hy.
  - injection H as <-. contradiction.
  - apply bind_Ok_inv in H as (y0 & Hy0 & H).
    apply bind_Ok_inv in H as (ys' & Hys & H).
    injection H as <-. destruct Hy as [<- | Hy]; [eauto |].
    destruct (IH _ _ Hys Hy) as (x & Hx & Hfx). eauto.
Qed.

Lemma matches_not_dir (fs : FS.t) (path : string) :
  FS.isdir fs path = false -> SkyInterval.matches fs path = [].
Proof.
  unfold FS.isdir, SkyInterval.matches, FS.walk.
  destruct (FS.resolve fs path) as [[c | es] |]; try discriminate; reflexivity.
Qed.

(** An interval over a path that is no directory (missing, or a file) is
    not an error: it is built with no probe, no reference time and a sun
    visibility of 0. *)
Theorem interval_of_no_directory (fs : FS.t) (path : string) :
  FS.isdir fs path = false ->
  SkyInterval.init fs path = Ok (SkyInterval.mk path [] [] 0%Q).
Proof.
  intros H. unfold SkyInterval.init. now rewrite (matches_not_dir _ _ H).
Qed.

Lemma interval_of_no_directory_witness :
  SkyInterval.init Sample.day_fs "/root/20130621"
  = Ok (SkyInterval.mk "/root/20130621" [] [] 0%Q).
Proof.
  apply (interval_of_no_directory Sample.day_fs "/root/20130621").
  reflexivity.
Defined.

(** The database, unlike the interval, fails on a root that is no
    directory: [listdir] raises and nothing is built. *)
Theorem database_of_no_directory (fs : FS.t) (path : string) :
  FS.isdir fs (Path.abspath (FS.cwd fs) path) = false ->
  SkyDB.init fs path
  = Raise (FileNotFoundError (Path.abspath (FS.cwd fs) path))
  \/ SkyDB.init fs path
     = Raise (NotADirectoryError (Path.abspath (FS.cwd fs) path)).
Proof.
  unfold FS.isdir, SkyDB.init, FS.listdir.
  destruct (FS.resolve fs (Path.abspath (FS.cwd fs) path)) as [[c | es] |];
    simpl; intros H; try discriminate; auto.
Qed.

Lemma database_of_no_directory_witness :
  SkyDB.init Sample.broken_fs "root/readme.txt"
  = Raise (FileNotFoundError
             (Path.abspath (FS.cwd Sample.broken_fs) "root/readme.txt"))
  \/ SkyDB.init Sample.broken_fs "root/readme.txt"
     = Raise (NotADirectoryError
                (Path.abspath (FS.cwd Sample.broken_fs) "root/readme.txt")).
Proof.
  apply (database_of_no_directory Sample.broken_fs "root/readme.txt").
  reflexivity.
Defined.

(** One probe that cannot be constructed aborts the construction of the
    whole interval. *)
Theorem interval_fails_fast
        (fs : FS.t) (path m : string) (e : exn) :
  In m (SkyInterval.matches fs path) ->
  SkyProbe.init_default fs m = Raise e ->
  exists e', SkyInterval.init fs path = Raise e'.
Proof.
  intros Hin Hm. unfold SkyInterval.init.
  destruct (mapM_Raise _ _ _ _ Hin Hm) as (e' & ->). simpl. eauto.
Qed.

Lemma interval_fails_fast_witness :
  exists e', SkyInterval.init Sample.broken_fs "/root/20130620" = Raise e'.
Proof.
  apply (interval_fails_fast Sample.broken_fs "/root/20130620"
           "/root/20130620/100000/envmap.exr"
           (DecodeError "/root/20130620/100000/envmap.exr")).
  - vm_compute. auto.
  - reflexivity.
Defined.

(** One interval that cannot be constructed aborts the construction of
    the whole database. *)
Theorem database_fails_fast
        (fs : FS.t) (path f : string) (names : list string) (e : exn) :
  FS.listdir fs (Path.abspath (FS.cwd fs) path) = Ok names ->
  In f names ->
  FS.isdir fs (Path.join (Path.abspath (FS.cwd fs) path) f) = true ->
  SkyInterval.init fs (Path.join (Path.abspath (FS.cwd fs) path) f) = Raise e ->
  exists e', SkyDB.init fs path = Raise e'.
Proof.
  intros Hls Hin Hdir Hiv. unfold SkyDB.init. rewrite Hls. simpl.
  set (p := Path.abspath (FS.cwd fs) path) in *.
  assert (Hd : In (Path.join p f)
                  (map (fun f => Path.join p f)
                       (filter (fun f => FS.isdir fs (Path.join p f)) names))).
  { apply in_map. apply filter_In. auto. }
  destruct (mapM_Raise _ _ _ _ Hd Hiv) as (e' & ->). simpl. eauto.
Qed.

Lemma database_fails_fast_witness :
  exists e', SkyDB.init Sample.broken_fs "/root" = Raise e'.
Proof.
  apply (database_fails_fast Sample.broken_fs "/root" "20130620"
           ["20130619"; "20130620"; "readme.txt"]
           (DecodeError "/root/20130620/100000/envmap.exr")).
  - reflexivity.
  - simpl. auto.
  - reflexivity.
  - vm_compute. reflexivity.
Defined.

(** A constructed database has one interval per immediate subdirectory of
    its root, in listing order: [intervals] and [intervals_dates] are
    parallel, the interval at an index being the one built from the path at
    that index, and that path is a directory entry of the root joined to
    the absolute root. *)
Theorem database_parallel (fs : FS.t) (path : string) (db : SkyDB.t) :
  SkyDB.init fs path = Ok db ->
  List.length (SkyDB.intervals db) = List.length (SkyDB.intervals_dates db)
  /\ forall i d,
      nth_error (SkyDB.intervals_dates db) i = Some d ->
      FS.isdir fs d = true
      /\ (exists names f,
             FS.listdir fs (Path.abspath (FS.cwd fs) path) = Ok names
             /\ In f names
             /\ d = Path.join (Path.abspath (FS.cwd fs) path) f)
      /\ exists iv,
          nth_error (SkyDB.intervals db) i = Some iv
          /\ SkyInterval.init fs d = Ok iv
          /\ SkyInterval.path iv = d.
Proof.
  unfold SkyDB.init. intros H.
  apply bind_Ok_inv in H as (names & Hls & H).
  apply bind_Ok_inv in H as (ivs & Hivs & H).
  injection H as <-. cbn [SkyDB.intervals SkyDB.intervals_dates].
  split; [now apply mapM_length in Hivs |].
  intros i d Hd.
  pose proof (nth_error_In _ _ Hd) as Hin.
  apply in_map_iff in Hin as (f & <- & Hf).
  apply filter_In in Hf as (Hf & Hdir).
  split; [assumption |]. split; [eauto |].
  destruct (mapM_nth_error _ _ _ _ _ Hivs Hd) as (iv & Hiv & Hinit).
  exists iv. repeat split; try assumption.
  now apply init_fields in Hinit as (Hp & _).
Qed.

Lemma database_parallel_witness :
  List.length [Sample.day_interval; Sample.empty_interval]
  = List.length ["/root/20130619"; "/root/20130620"]
  /\ forall i d,
      nth_error ["/root/20130619"; "/root/20130620"] i = Some d ->
      FS.isdir Sample.day_fs d = true
      /\ (exists names f,
             FS.listdir Sample.day_fs
                        (Path.abspath (FS.cwd Sample.day_fs) "root") = Ok names
             /\ In f names
             /\ d = Path.join (Path.abspath (FS.cwd Sample.day_fs) "root") f)
      /\ exists iv,
          nth_error [Sample.day_interval; Sample.empty_interval] i = Some iv
          /\ SkyInterval.init Sample.day_fs d = Ok iv
          /\ SkyInterval.path iv = d.
Proof.
  apply (database_parallel Sample.day_fs "root"
           (SkyDB.mk ["/root/20130619"; "/root/20130620"]
                     [Sample.day_interval; Sample.empty_interval])).
  vm_compute. reflexivity.
Defined.

(** ** Invariants of a constructed interval *)

Lemma make_Ok_valid (y mo d h mi s : Z) (t : Datetime.t) :
  Datetime.make y mo d h mi s = Ok t -> valid_time h mi s.
Proof.
  unfold Datetime.make, valid_time.
  destruct (negb (forallb Datetime.fits_C_int [y; mo; d; h; mi; s]));
    [discriminate |].
  destruct (negb (Datetime.in_range 1 y 9999)); [discriminate |].
  destruct (negb (Datetime.in_range 1 mo 12)); [discriminate |].
  destruct (negb (Datetime.in_range 1 d (Datetime.days_in_month y mo)));
    [discriminate |].
  destruct (Datetime.in_range 0 h 23) eqn:Eh; [| discriminate].
  destruct (Datetime.in_range 0 mi 59) eqn:Em; [| discriminate].
  destruct (Datetime.in_range 0 s 59) eqn:Es; [| discriminate].
  intros _. unfold Datetime.in_range in *.
  apply andb_prop in Eh as [H1 H2], Em as [H3 H4], Es as [H5 H6].
  apply Z.leb_le in H1, H2, H3, H4, H5, H6. lia.
Qed.

Lemma reftime_valid (p : SkyProbe.t) (t : Datetime.t) :
  SkyInterval.reftime p = Ok t ->
  valid_time (Datetime.hour t) (Datetime.minute t) (Datetime.second t).
Proof.
  unfold SkyInterval.reftime. intros H.
  repeat (apply bind_Ok_inv in H as (? & _ & H)).
  pose proof (make_Ok_valid _ _ _ _ _ _ _ H) as Hv.
  apply make_Ok_inv in H. now subst t.
Qed.

(** In a constructed interval the reference times run parallel to the
    probes: there are as many, the one at an index is the time parsed from
    the directory name of the probe at that index, and it is a time of day
    on the fixed date of year 1, January the 1st. *)
Theorem interval_parallel (fs : FS.t) (path : string) (iv : SkyInterval.t) :
  SkyInterval.init fs path = Ok iv ->
  List.length (SkyInterval.reftimes iv) = List.length (SkyInterval.probes iv)
  /\ forall i p,
      nth_error (SkyInterval.probes iv) i = Some p ->
      exists t,
        nth_error (SkyInterval.reftimes iv) i = Some t
        /\ SkyInterval.reftime p = Ok t
        /\ (Datetime.year t, Datetime.month t, Datetime.day t) = (1, 1, 1)
        /\ valid_time (Datetime.hour t) (Datetime.minute t) (Datetime.second t).
Proof.
  intros H. split; [now apply init_parallel in H |].
  apply init_fields in H as (_ & _ & Hmap).
  intros i p Hp.
  destruct (mapM_nth_error _ _ _ _ _ Hmap Hp) as (t & Ht & Hpt).
  exists t. repeat split; try assumption.
  - apply reftime_date in Hpt as (-> & -> & ->). reflexivity.
  - now apply reftime_valid in Hpt as (? & _).
  - now apply reftime_valid in Hpt as (? & _).
  - now apply reftime_valid in Hpt as (_ & ? & _).
  - now apply reftime_valid in Hpt as (_ & ? & _).
  - now apply reftime_valid in Hpt as (_ & _ & ?).
  - now apply reftime_valid in Hpt as (_ & _ & ?).
Qed.

Lemma interval_parallel_witness :
  List.length (SkyInterval.reftimes Sample.day_interval)
  = List.length (SkyInterval.probes Sample.day_interval)
  /\ forall i p,
      nth_error (SkyInterval.probes Sample.day_interval) i = Some p ->
      exists t,
        nth_error (SkyInterval.reftimes Sample.day_interval) i = Some t
        /\ SkyInterval.reftime p = Ok t
        /\ (Datetime.year t, Datetime.month t, Datetime.day t) = (1, 1, 1)
        /\ valid_time (Datetime.hour t) (Datetime.minute t) (Datetime.second t).
Proof.
  apply (interval_parallel Sample.day_fs "/root/20130619" Sample.day_interval).
  vm_compute. reflexivity.
Defined.

Lemma sun_visibility_value (fs : FS.t) (path : string) (iv : SkyInterval.t) :
  SkyInterval.init fs path = Ok iv ->
  SkyInterval.sun_visibility iv
  = match SkyInterval.probes iv with
    | [] => 0%Q
    | _ :: _ =>
        (inject_Z (visible_count (SkyInterval.probes iv))
         / inject_Z (Z.of_nat (List.length (SkyInterval.probes iv))))%Q
    end.
Proof.
  unfold SkyInterval.init. intros H.
  apply bind_Ok_inv in H as (ps & _ & H).
  apply bind_Ok_inv in H as (rs & _ & H).
  apply bind_Ok_inv in H as (v & Hv & H).
  injection H as <-. cbn [SkyInterval.sun_visibility SkyInterval.probes].
  destruct ps as [| p ps].
  - simpl in Hv. congruence.
  - change (0 <? Z.of_nat (List.length (p :: ps))) with true in Hv.
    cbv iota in Hv.
    apply bind_Ok_inv in Hv as (n & Hn & Hv).
    rewrite <- (count_sun_visible_filter _ _ Hn). congruence.
Qed.

Lemma visible_count_bounds (ps : list SkyProbe.t) :
  0 <= visible_count ps <= Z.of_nat (List.length ps).
Proof.
  unfold visible_count.
  pose proof (filter_length_le sun_visible_b ps). lia.
Qed.

Lemma Qdiv_eq_one (a b : Q) : (0 < b)%Q -> (a / b == 1)%Q <-> (a == b)%Q.
Proof.
  intros Hb.
  assert (Hnz : ~ (b == 0)%Q)
    by (intros E; rewrite E in Hb; now apply (Qlt_irrefl 0)).
  split; intros E.
  - rewrite <- (Qmult_div_r a b Hnz), E. ring.
  - rewrite E. now apply Qmult_inv_r.
Qed.

(** The sun visibility of a constructed interval is a fraction: it lies
    between 0 and 1; it is 1 exactly when every probe shows the sun and
    there is at least one probe. *)
Theorem sun_visibility_bounds (fs : FS.t) (path : string) (iv : SkyInterval.t) :
  SkyInterval.init fs path = Ok iv ->
  (0 <= SkyInterval.sun_visibility iv <= 1)%Q
  /\ ((SkyInterval.sun_visibility iv == 1)%Q
      <-> SkyInterval.probes iv <> []
          /\ Forall (fun p => SkyProbe.sun_visible p = Ok true)
                    (SkyInterval.probes iv)).
Proof.
  intros H. rewrite (sun_visibility_value _ _ _ H).
  destruct (SkyInterval.probes iv) as [| p ps] eqn:Hps.
  - split; [split; discriminate |]. split.
    + intros E. discriminate E.
    + intros [Hne _]. congruence.
  - set (l := p :: ps) in *.
    pose proof (visible_count_bounds l) as [Hlo Hhi].
    assert (Hlen : 0 < Z.of_nat (List.length l)) by (unfold l; simpl; lia).
    assert (HlenQ : (0 < inject_Z (Z.of_nat (List.length l)))%Q)
      by (rewrite <- (Zlt_Qlt 0); assumption).
    split; [split |].
    + apply Qle_shift_div_l; [assumption |]. rewrite Qmult_0_l.
      now rewrite <- (Zle_Qle 0).
    + apply Qle_shift_div_r; [assumption |]. rewrite Qmult_1_l.
      now rewrite <- Zle_Qle.
    + assert (Hiff : (inject_Z (visible_count l)
                      / inject_Z (Z.of_nat (List.length l)) == 1)%Q
                     <-> visible_count l = Z.of_nat (List.length l)).
      { rewrite (Qdiv_eq_one _ _ HlenQ). split.
        - apply inject_Z_injective.
        - now intros ->. }
      rewrite Hiff. unfold visible_count. split.
      * intros E. split; [discriminate |].
        apply Nat2Z.inj in E.
        apply Forall_forall. intros q Hq.
        assert (Hall : filter sun_visible_b l = l).
        { clear -E. induction l as [| a l IH]; [reflexivity |].
          simpl in *. destruct (sun_visible_b a); simpl in E.
          - f_equal. apply IH. lia.
          - pose proof (filter_length_le sun_visible_b l). lia. }
        rewrite <- Hall in Hq. apply filter_In in Hq as [_ Hq].
        unfold sun_visible_b in Hq.
        destruct (SkyProbe.sun_visible q) as [b |]; congruence.
      * intros [_ Hall]. f_equal. f_equal.
        clear -Hall. induction Hall as [| a l Ha _ IH]; [reflexivity |].
        simpl. unfold sun_visible_b at 1. rewrite Ha. simpl. now rewrite IH.
Qed.

Lemma sun_visibility_bounds_witness :
  (0 <= SkyInterval.sun_visibility Sample.day_interval <= 1)%Q
  /\ ((SkyInterval.sun_visibility Sample.day_interval == 1)%Q
      <-> SkyInterval.probes Sample.day_interval <> []
          /\ Forall (fun p => SkyProbe.sun_visible p = Ok true)
                    (SkyInterval.probes Sample.day_interval)).
Proof.
  apply (sun_visibility_bounds Sample.day_fs "/root/20130619"
                               Sample.day_interval).
  vm_compute. reflexivity.
Defined.

(** ** Names read back from paths *)

Lemma split_nonempty (c : ascii) (s : string) : Py.split c s <> [].
Proof.
  induction s as [| a s IH]; simpl; [discriminate |].
  destruct (Ascii.eqb a c); [discriminate |].
  destruct (Py.split c s); [contradiction | discriminate].
Qed.

Lemma split_app_sep (c : ascii) (a b : string) :
  Py.split c (a ++ String c b) = (Py.split c a ++ Py.split c b)%list.
Proof.
  induction a as [| x a IH]; simpl.
  - now rewrite Ascii.eqb_refl.
  - destruct (Ascii.eqb x c); rewrite IH; [reflexivity |].
    pose proof (split_nonempty c a) as Hne.
    destruct (Py.split c a); [contradiction | reflexivity].
Qed.

Lemma split_plain (f : string) :
  has_sep f = false -> Py.split Path.sep f = [f].
Proof.
  induction f as [| x f IH]; simpl; intros H; [reflexivity |].
  apply orb_false_elim in H as [Hx Hf].
  rewrite Hx, (IH Hf). reflexivity.
Qed.

Lemma split_no_sep (s : string) :
  Forall (fun w => has_sep w = false) (Py.split Path.sep s).
Proof.
  induction s as [| x s IH]; simpl.
  - repeat constructor.
  - destruct (Ascii.eqb x Path.sep) eqn:E.
    + constructor; [reflexivity | assumption].
    + destruct (Py.split Path.sep s) as [| w ws]; [repeat constructor |].
      * simpl. now rewrite E.
      * inversion IH as [| ? ? Hw Hws]; subst. constructor; [| assumption].
        simpl. now rewrite E, Hw.
Qed.

Lemma split_join_comps (comps : list string) :
  comps <> [] -> Forall (fun w => has_sep w = false) comps ->
  Py.split Path.sep (Py.join "/" comps) = comps.
Proof.
  induction comps as [| x r IH]; intros Hne Hall; [contradiction |].
  inversion Hall as [| ? ? Hx Hr]; subst.
  destruct r as [| y r].
  - simpl. now apply split_plain.
  - change (Py.join "/" (x :: y :: r))
      with (x ++ String Path.sep (Py.join "/" (y :: r))).
    rewrite split_app_sep, (split_plain _ Hx), IH by (assumption || discriminate).
    reflexivity.
Qed.

Lemma endswith_char_split (c : ascii) (p : string) :
  Py.endswith_char c p = true -> exists a, p = a ++ String c "".
Proof.
  induction p as [| d p IH]; simpl; intros H; [discriminate |].
  destruct p as [| d' p'].
  - apply Ascii.eqb_eq in H. subst d. now exists "".
  - destruct (IH H) as (a & Ha). exists (String d a). simpl. now rewrite <- Ha.
Qed.

Lemma endswith_char_app (c : ascii) (p f : string) :
  f <> "" -> Py.endswith_char c (p ++ f) = Py.endswith_char c f.
Proof.
  intros Hf. induction p as [| d p IH]; [reflexivity |].
  simpl. destruct (p ++ f) as [| x r] eqn:E; [| exact IH].
  destruct p; simpl in E; [contradiction | discriminate].
Qed.

Lemma endswith_char_plain (f : string) :
  has_sep f = false -> Py.endswith_char Path.sep f = false.
Proof.
  induction f as [| x f IH]; intros H; [reflexivity |].
  cbn [has_sep] in H. apply orb_false_elim in H as [Hx Hf].
  destruct f as [| y f].
  - cbn [Py.endswith_char]. now rewrite Ascii.eqb_sym.
  - change (Py.endswith_char Path.sep (String x (String y f)))
      with (Py.endswith_char Path.sep (String y f)).
    now apply IH.
Qed.

Lemma startswith_sep_plain (f : string) :
  has_sep f = false -> Py.startswith "/" f = false.
Proof.
  destruct f as [| x f]; intros H; [reflexivity |].
  cbn [has_sep] in H. apply orb_false_elim in H as [Hx _].
  unfold Py.startswith. cbn [prefix].
  destruct (ascii_dec "/" x) as [E | _]; [| reflexivity].
  subst x. vm_compute in Hx. discriminate.
Qed.

Lemma append_nil_r (s : string) : s ++ "" = s.
Proof. induction s; simpl; congruence. Qed.

Lemma append_assoc (a b c : string) : (a ++ b) ++ c = a ++ (b ++ c).
Proof. induction a; simpl; congruence. Qed.

Lemma append_eq_nil (a b : string) : a ++ b = "" -> b = "".
Proof. destruct a; simpl; [auto | discriminate]. Qed.

(** Joining a plain name to any path adds exactly one component. *)
Lemma split_join_plain (p f : string) :
  f <> "" -> has_sep f = false ->
  Path.join p f <> ""
  /\ Py.endswith_char Path.sep (Path.join p f) = false
  /\ exists pre, Py.split Path.sep (Path.join p f) = (pre ++ [f])%list.
Proof.
  intros Hne Hf. unfold Path.join. rewrite (startswith_sep_plain _ Hf).
  assert (Hend : forall q, Py.endswith_char Path.sep (q ++ f) = false)
    by (intros q; rewrite endswith_char_app by assumption;
        now apply endswith_char_plain).
  destruct (String.eqb p "") eqn:Ep; simpl.
  - apply String.eqb_eq in Ep. subst p. simpl. repeat split; auto.
    + apply (Hend "").
    + exists []. now apply split_plain.
  - destruct (Py.endswith_char Path.sep p) eqn:Es.
    + destruct (endswith_char_split _ _ Es) as (a & ->). repeat split.
      * intros E. now apply append_eq_nil in E.
      * apply Hend.
      * exists (Py.split Path.sep a).
        rewrite append_assoc. simpl.
        now rewrite split_app_sep, (split_plain _ Hf).
    + repeat split.
      * intros E. apply append_eq_nil in E. discriminate.
      * change (p ++ String "/" f) with (p ++ ("/" ++ f)).
        rewrite <- append_assoc. apply Hend.
      * exists (Py.split Path.sep p).
        change (String "/" f) with (String Path.sep f).
        now rewrite split_app_sep, (split_plain _ Hf).
Qed.

Lemma plain_not_dots (f : string) :
  plain_name f ->
  String.eqb f "" = false /\ String.eqb f "." = false
  /\ String.eqb f ".." = false.
Proof.
  intros (H1 & H2 & H3 & _). repeat split; now apply String.eqb_neq.
Qed.

Lemma norm_comps_plain (b : bool) (good : list string) :
  Forall plain_name good ->
  forall acc, Path.norm_comps b acc good = (rev acc ++ good)%list.
Proof.
  induction 1 as [| f r Hf _ IH]; intros acc; simpl.
  - now rewrite app_nil_r.
  - destruct (plain_not_dots _ Hf) as (E1 & E2 & E3).
    rewrite E1, E2, E3. simpl. rewrite IH. simpl.
    now rewrite <- app_assoc.
Qed.

Lemma norm_comps_no_sep (b : bool) (comps : list string) :
  Forall (fun w => has_sep w = false) comps ->
  forall acc, Forall (fun w => has_sep w = false) acc ->
              Forall (fun w => has_sep w = false) (Path.norm_comps b acc comps).
Proof.
  induction 1 as [| c r Hc _ IH]; intros acc Hacc; simpl.
  - now apply Forall_rev.
  - destruct (String.eqb c "" || String.eqb c "."); [now apply IH |].
    match goal with |- context [if ?x then _ else _] => destruct x end.
    + apply IH. now constructor.
    + apply IH. destruct acc; [assumption | now inversion Hacc].
Qed.

Lemma norm_comps_app (b : bool) (pre l : list string) :
  Forall (fun w => has_sep w = false) pre ->
  forall acc,
    Forall (fun w => has_sep w = false) acc ->
    exists acc',
      Forall (fun w => has_sep w = false) acc'
      /\ Path.norm_comps b acc (pre ++ l) = Path.norm_comps b acc' l.
Proof.
  induction 1 as [| c pre Hc _ IH]; intros acc Hacc; simpl; [eauto |].
  destruct (String.eqb c "" || String.eqb c "."); [now apply IH |].
  match goal with |- context [if ?x then _ else _] => destruct x end.
  - apply IH. now constructor.
  - apply IH. destruct acc; [assumption | now inversion Hacc].
Qed.

Lemma plain_no_sep (good : list string) :
  Forall plain_name good -> Forall (fun w => has_sep w = false) good.
Proof.
  apply Forall_impl. now intros f (_ & _ & _ & H).
Qed.

(** Plain names at the end of a path survive [normpath] as its last
    components. *)
Lemma normpath_keeps_tail (s : string) (pre good : list string) :
  s <> "" ->
  Py.split Path.sep s = (pre ++ good)%list ->
  Forall plain_name good -> good <> [] ->
  exists pre', Py.split Path.sep (Path.normpath s) = (pre' ++ good)%list.
Proof.
  intros Hs Hsplit Hgood Hne. unfold Path.normpath.
  apply String.eqb_neq in Hs. rewrite Hs, Hsplit.
  pose proof (split_no_sep s) as Hall. rewrite Hsplit in Hall.
  apply Forall_app in Hall as [Hpre _].
  destruct (norm_comps_app (Py.startswith "/" s) pre good Hpre [] (Forall_nil _))
    as (acc & Hacc & ->).
  rewrite (norm_comps_plain _ _ Hgood).
  set (comps := (rev acc ++ good)%list).
  assert (Hcomps : Py.split Path.sep (Py.join "/" comps) = comps).
  { apply split_join_comps.
    - unfold comps. intros E. apply app_eq_nil in E as [_ E]. contradiction.
    - unfold comps. apply Forall_app. split.
      + now apply Forall_rev.
      + now apply plain_no_sep. }
  set (slashes := if Py.startswith "/" s
                  then if Py.startswith "//" s && negb (Py.startswith "///" s)
                       then "//" else "/"
                  else "").
  assert (Hp : exists pfx,
             Py.split Path.sep (slashes ++ Py.join "/" comps)
             = (pfx ++ comps)%list).
  { unfold slashes.
    destruct (Py.startswith "/" s);
      [destruct (Py.startswith "//" s && negb (Py.startswith "///" s)) |].
    - exists [""; ""]. simpl. now rewrite Hcomps.
    - exists [""]. simpl. now rewrite Hcomps.
    - exists []. simpl. exact Hcomps. }
  destruct Hp as (pfx & Hp).
  destruct (String.eqb (slashes ++ Py.join "/" comps) "") eqn:E.
  - exfalso. apply String.eqb_eq in E. rewrite E in Hp. simpl in Hp.
    destruct (exists_last Hne) as (g & f & Hg).
    assert (Hf : plain_name f).
    { rewrite Hg in Hgood. apply Forall_app in Hgood as [_ Hgood].
      now inversion Hgood. }
    unfold comps in Hp. rewrite Hg, !app_assoc in Hp.
    change [""] with ([] ++ [""])%list in Hp.
    apply app_inj_tail in Hp as [_ Hp]. destruct Hf as (Hf & _). congruence.
  - exists (pfx ++ rev acc)%list. unfold comps in Hp.
    now rewrite <- app_assoc.
Qed.

Lemma getitem_last {A : Type} (l : list A) (x : A) :
  Py.getitem (l ++ [x]) (-1) = Ok x.
Proof.
  unfold Py.getitem. rewrite length_app. simpl List.length.
  change (-1 <? 0) with true. cbv iota.
  replace (-1 + Z.of_nat (List.length l + 1)) with (Z.of_nat (List.length l))
    by lia.
  destruct (Z.of_nat (List.length l) <? 0) eqn:E1;
    [apply Z.ltb_lt in E1; lia |].
  destruct (Z.of_nat (List.length l + 1) <=? Z.of_nat (List.length l)) eqn:E2;
    [apply Z.leb_le in E2; lia |].
  simpl. rewrite Nat2Z.id, nth_error_app2, Nat.sub_diag by lia. reflexivity.
Qed.

Lemma getitem_last_but_one {A : Type} (l : list A) (x y : A) :
  Py.getitem (l ++ [x; y]) (-2) = Ok x.
Proof.
  unfold Py.getitem. rewrite length_app. simpl List.length.
  change (-2 <? 0) with true. cbv iota.
  replace (-2 + Z.of_nat (List.length l + 2)) with (Z.of_nat (List.length l))
    by lia.
  destruct (Z.of_nat (List.length l) <? 0) eqn:E1;
    [apply Z.ltb_lt in E1; lia |].
  destruct (Z.of_nat (List.length l + 2) <=? Z.of_nat (List.length l)) eqn:E2;
    [apply Z.leb_le in E2; lia |].
  simpl. rewrite Nat2Z.id, nth_error_app2, Nat.sub_diag by lia. reflexivity.
Qed.

(** The last component of a normalised [join(p, f)] is [f]. *)
Lemma last_component_join (p f : string) :
  plain_name f ->
  Py.getitem (Py.split Path.sep (Path.normpath (Path.join p f))) (-1) = Ok f.
Proof.
  intros Hf. pose proof Hf as (Hne & _ & _ & Hsep).
  destruct (split_join_plain p f Hne Hsep) as (Hnz & _ & pre & Hsplit).
  destruct (normpath_keeps_tail _ pre [f] Hnz Hsplit) as (pre' & ->).
  - now constructor.
  - discriminate.
  - apply getitem_last.
Qed.

(** The date of an interval whose path is a directory entry [f] joined
    to any path is [f]: what [SkyDB] stores reads back as the name of the
    subdirectory. *)
Theorem date_reads_back (iv : SkyInterval.t) (p f : string) :
  plain_name f ->
  SkyInterval.path iv = Path.join p f ->
  SkyInterval.date iv = Ok f.
Proof.
  intros Hf Hp. unfold SkyInterval.date. rewrite Hp.
  now apply last_component_join.
Qed.

Lemma date_reads_back_witness :
  SkyInterval.date Sample.day_interval = Ok "20130619".
Proof.
  apply (date_reads_back Sample.day_interval "/root" "20130619").
  - repeat split; discriminate.
  - reflexivity.
Defined.

Lemma time_reads_back_aux (pr : SkyProbe.t) (d t e : string) :
  plain_name t -> plain_name e ->
  SkyProbe.path pr = Path.join (Path.join d t) e ->
  SkyProbe.time pr = Ok t.
Proof.
  intros Ht He Hp. unfold SkyProbe.time. rewrite Hp.
  pose proof Ht as (Htne & _ & _ & Htsep).
  pose proof He as (Hene & _ & _ & Hesep).
  destruct (split_join_plain d t Htne Htsep) as (Hnz & Hend & pre & Hsplit).
  assert (Hjoin : Path.join (Path.join d t) e
                  = Path.join d t ++ String Path.sep e).
  { unfold Path.join at 1. rewrite (startswith_sep_plain _ Hesep), Hend.
    apply String.eqb_neq in Hnz. rewrite Hnz. reflexivity. }
  assert (Hsplit2 : Py.split Path.sep (Path.join (Path.join d t) e)
                    = (pre ++ [t; e])%list).
  { rewrite Hjoin, split_app_sep, Hsplit, (split_plain _ Hesep).
    now rewrite <- app_assoc. }
  destruct (normpath_keeps_tail (Path.join (Path.join d t) e) pre [t; e])
    as (pre' & ->); try assumption.
  - rewrite Hjoin. intros E. apply append_eq_nil in E. discriminate.
  - constructor; [assumption | constructor; [assumption | constructor]].
  - discriminate.
  - apply getitem_last_but_one.
Qed.

(** The time of a probe whose file [e] lies in the directory [t] is [t],
    wherever that directory is. *)
Theorem time_reads_back (pr : SkyProbe.t) (d t e : string) :
  plain_name t -> plain_name e ->
  SkyProbe.path pr = Path.join (Path.join d t) e ->
  SkyProbe.time pr = Ok t.
Proof. apply time_reads_back_aux. Qed.

Lemma time_reads_back_witness :
  SkyProbe.time (Sample.probe_of [1%Q]) = Ok "102639".
Proof.
  apply (time_reads_back (Sample.probe_of [1%Q]) "/root/20130619" "102639"
                         "envmap.exr").
  - repeat split; discriminate.
  - repeat split; discriminate.
  - reflexivity.
Defined.

(** ** The probes an interval finds *)

Lemma node_nested_ind (P : FS.node -> Prop) :
  (forall c, P (FS.File c)) ->
  (forall es, Forall (fun e => P (snd e)) es -> P (FS.Dir es)) ->
  forall x, P x.
Proof.
  intros HF HD. fix IH 1. intros [c | es].
  - apply HF.
  - apply HD. induction es as [| e es IHes]; constructor.
    + apply IH.
    + apply IHes.
Qed.

Lemma reaches_trans (top : string) (x0 : FS.node) (r : string) (x : FS.node)
      (r' : string) (x' : FS.node) :
  reaches top x0 r x -> reaches r x r' x' -> reaches top x0 r' x'.
Proof.
  intros H0 H. induction H as [| q es name child _ IH Hin]; [assumption |].
  eapply reaches_entry; eauto.
Qed.

(** Every triple [os.walk] yields is that of a directory reached from the
    top one, with the names of its files. *)
Lemma walk_node_reaches (x : FS.node) :
  forall top tr,
    In tr (FS.walk_node top x) ->
    exists es,
      reaches top x (fst (fst tr)) (FS.Dir es) /\ snd tr = FS.filenames es.
Proof.
  induction x as [c | es IH] using node_nested_ind; intros top tr Hin.
  - destruct Hin.
  - cbn [FS.walk_node] in Hin. destruct Hin as [<- | Hin].
    + exists es. split; [apply reaches_top | reflexivity].
    + apply in_flat_map in Hin as ([name child] & He & Hin).
      rewrite Forall_forall in IH.
      destruct (IH _ He _ _ Hin) as (es' & Hreach & Hfiles).
      exists es'. split; [| assumption].
      eapply reaches_trans; [| exact Hreach].
      eapply reaches_entry; [apply reaches_top | exact He].
Qed.

Lemma matches_shape (fs : FS.t) (path m : string) :
  In m (SkyInterval.matches fs path) ->
  exists x0 root es,
    FS.resolve fs path = Some x0
    /\ reaches path x0 root (FS.Dir es)
    /\ In "envmap.exr" (FS.filenames es)
    /\ m = Path.join root "envmap.exr".
Proof.
  unfold SkyInterval.matches, FS.walk. intros Hin.
  apply in_flat_map in Hin as ([[root dirs] files] & Htr & Hin).
  apply in_map_iff in Hin as (filename & <- & Hf).
  apply filter_In in Hf as [Hfile Hf]. apply String.eqb_eq in Hf.
  subst filename.
  destruct (FS.resolve fs path) as [x0 |]; [| destruct Htr].
  destruct (walk_node_reaches x0 path _ Htr) as (es & Hreach & Hfiles).
  cbn [fst snd] in Hreach, Hfiles. subst files.
  exists x0, root, es. auto.
Qed.

Lemma envmap_exr_plain : plain_name "envmap.exr".
Proof. repeat split; discriminate. Qed.

(** Every probe of a constructed interval holds the buffer decoded, in the
    angular format, from the file at its path; that file is an entry named
    [envmap.exr] of a directory reached from the interval's directory by
    going down through entries: the interval's directory itself, or one
    below it, and then the time of the probe is the name of that
    directory. *)
Theorem probes_are_envmap_files
        (fs : FS.t) (path : string) (iv : SkyInterval.t) (p : SkyProbe.t) :
  SkyInterval.init fs path = Ok iv ->
  In p (SkyInterval.probes iv) ->
  EnvironmentMap.format_ (SkyProbe.envmap p) = "angular"
  /\ FS.resolve fs (SkyProbe.path p)
     = Some (FS.File (Some (SkyProbe.pictureHDR p)))
  /\ Py.getitem (Py.split Path.sep (Path.normpath (SkyProbe.path p))) (-1)
     = Ok "envmap.exr"
  /\ exists x0 root es,
      FS.resolve fs path = Some x0
      /\ reaches path x0 root (FS.Dir es)
      /\ In "envmap.exr" (FS.filenames es)
      /\ SkyProbe.path p = Path.join root "envmap.exr"
      /\ (root = path
          \/ exists r es' name,
              reaches path x0 r (FS.Dir es')
              /\ In (name, FS.Dir es) es'
              /\ root = Path.join r name
              /\ (plain_name name -> SkyProbe.time p = Ok name)).
Proof.
  intros Hinit Hp.
  apply init_fields in Hinit as (_ & Hps & _).
  destruct (mapM_In _ _ _ _ Hps Hp) as (m & Hm & Hpm).
  unfold SkyProbe.init_default, SkyProbe.init in Hpm.
  apply bind_Ok_inv in Hpm as (em & Hem & Hpm). injection Hpm as <-.
  cbn [SkyProbe.envmap SkyProbe.path SkyProbe.pictureHDR].
  destruct (matches_shape _ _ _ Hm) as (x0 & root & es & Hx0 & Hreach & Hfile & ->).
  unfold EnvironmentMap.init in Hem.
  destruct (FS.resolve fs (Path.join root "envmap.exr")) as [[[d |] | es0] |];
    try discriminate.
  injection Hem as <-. cbn [EnvironmentMap.format_ EnvironmentMap.data].
  split; [reflexivity |]. split; [reflexivity |].
  split; [apply last_component_join, envmap_exr_plain |].
  exists x0, root, es. repeat split; try assumption.
  inversion Hreach as [| r es' name child Hr Hin]; subst; [now left |].
  right. exists r, es', name. repeat split; try assumption.
  intros Hname.
  apply (time_reads_back_aux _ r name "envmap.exr" Hname envmap_exr_plain).
  reflexivity.
Qed.

Lemma probes_are_envmap_files_witness :
  EnvironmentMap.format_ (SkyProbe.envmap Sample.probe_150000) = "angular"
  /\ FS.resolve Sample.day_fs (SkyProbe.path Sample.probe_150000)
     = Some (FS.File (Some (SkyProbe.pictureHDR Sample.probe_150000)))
  /\ Py.getitem
       (Py.split Path.sep (Path.normpath (SkyProbe.path Sample.probe_150000)))
       (-1)
     = Ok "envmap.exr"
  /\ exists x0 root es,
      FS.resolve Sample.day_fs "/root/20130619" = Some x0
      /\ reaches "/root/20130619" x0 root (FS.Dir es)
      /\ In "envmap.exr" (FS.filenames es)
      /\ SkyProbe.path Sample.probe_150000 = Path.join root "envmap.exr"
      /\ (root = "/root/20130619"
          \/ exists r es' name,
              reaches "/root/20130619" x0 r (FS.Dir es')
              /\ In (name, FS.Dir es) es'
              /\ root = Path.join r name
              /\ (plain_name name ->
                  SkyProbe.time Sample.probe_150000 = Ok name)).
Proof.
  apply (probes_are_envmap_files Sample.day_fs "/root/20130619"
                                 Sample.day_interval).
  - vm_compute. reflexivity.
  - simpl. auto.
Defined.

(** ** Directory names as times *)

Lemma int_error (s : string) (e : exn) :
  Py.int s = Raise e ->
  e = ValueError "invalid literal for int() with base 10".
Proof.
  unfold Py.int.
  repeat match goal with
         | |- context [match ?x with _ => _ end] => destruct x
         end; congruence.
Qed.

Lemma substring_beyond (n m : nat) (t : string) :
  (String.length t <= n)%nat -> substring n m t = "".
Proof.
  revert n. induction t as [| c t IH]; intros n H.
  - destruct n, m; reflexivity.
  - destruct n as [| n]; simpl in H; [lia |].
    simpl. apply IH. lia.
Qed.

Lemma substring_of_prefix (t : string) :
  forall a n k, (a + n <= k)%nat ->
                substring a n (substring 0 k t) = substring a n t.
Proof.
  induction t as [| c t IH]; intros a n k H.
  - destruct k; reflexivity.
  - destruct k as [| k].
    + assert (a = 0%nat) by lia. assert (n = 0%nat) by lia. subst.
      reflexivity.
    + cbn [substring]. destruct a as [| a].
      * destruct n as [| n]; [reflexivity |].
        cbn [substring]. f_equal. apply (IH 0%nat). lia.
      * cbn [substring]. apply IH. lia.
Qed.

Lemma mapM_In_Ok {A B : Type} (f : A -> result B) :
  forall xs ys x, mapM f xs = Ok ys -> In x xs -> exists y, f x = Ok y.
Proof.
  intros xs ys x H Hin.
  destruct (f x) as [y | e] eqn:E; [eauto |].
  destruct (mapM_Raise f xs x e Hin E) as (e' & He'). congruence.
Qed.

Lemma short_name_reftime (p : SkyProbe.t) (t : string) :
  SkyProbe.time p = Ok t ->
  (String.length t <= 4)%nat ->
  SkyInterval.reftime p
  = Raise (ValueError "invalid literal for int() with base 10").
Proof.
  intros Ht Hlen. unfold SkyInterval.reftime. rewrite Ht. cbn [bind].
  destruct (Py.int (Py.slice t 0 2)) as [h | e] eqn:Eh;
    [| now rewrite (int_error _ _ Eh)].
  cbn [bind].
  destruct (Py.int (Py.slice t 2 4)) as [mi | e] eqn:Em;
    [| now rewrite (int_error _ _ Em)].
  cbn [bind]. unfold Py.slice at 1.
  now rewrite substring_beyond by lia.
Qed.

(** In a constructed interval the directory name of every probe has at
    least five characters: a shorter one leaves nothing to parse the
    seconds from, and [int] of the empty string aborts the construction. *)
Theorem probe_names_have_seconds
        (fs : FS.t) (path : string) (iv : SkyInterval.t) (p : SkyProbe.t) :
  SkyInterval.init fs path = Ok iv ->
  In p (SkyInterval.probes iv) ->
  exists t, SkyProbe.time p = Ok t /\ (5 <= String.length t)%nat.
Proof.
  intros Hinit Hp.
  apply init_fields in Hinit as (_ & _ & Hmap).
  destruct (mapM_In_Ok _ _ _ _ Hmap Hp) as (rt & Hrt).
  destruct (SkyProbe.time p) as [t | e] eqn:Ht.
  - exists t. split; [reflexivity |].
    destruct (Nat.le_gt_cases (String.length t) 4) as [Hshort | Hlong];
      [| lia].
    rewrite (short_name_reftime _ _ Ht Hshort) in Hrt. discriminate.
  - unfold SkyInterval.reftime in Hrt. rewrite Ht in Hrt. discriminate.
Qed.

Lemma probe_names_have_seconds_witness :
  exists t, SkyProbe.time (Sample.probe_of [6000; 12; 1 # 2]%Q) = Ok t
            /\ (5 <= String.length t)%nat.
Proof.
  apply (probe_names_have_seconds Sample.day_fs "/root/20130619"
                                  Sample.day_interval).
  - vm_compute. reflexivity.
  - simpl. auto.
Defined.

(** Only the first six characters of a probe's directory name count: two
    probes whose names agree on them get the same reference time, or the
    same error. *)
Theorem reftime_reads_six_characters (p p' : SkyProbe.t) (t t' : string) :
  SkyProbe.time p = Ok t ->
  SkyProbe.time p' = Ok t' ->
  substring 0 6 t = substring 0 6 t' ->
  SkyInterval.reftime p = SkyInterval.reftime p'.
Proof.
  intros Ht Ht' H6. unfold SkyInterval.reftime. rewrite Ht, Ht'. cbn [bind].
  assert (Hs : forall a b, (a <= b <= 6)%nat ->
                           Py.slice t a b = Py.slice t' a b).
  { intros a b Hb. unfold Py.slice.
    rewrite <- (substring_of_prefix t a (b - a) 6) by lia.
    rewrite <- (substring_of_prefix t' a (b - a) 6) by lia.
    now rewrite H6. }
  now rewrite (Hs 0%nat 2%nat), (Hs 2%nat 4%nat), (Hs 4%nat 6%nat) by lia.
Qed.

Lemma reftime_reads_six_characters_witness :
  SkyInterval.reftime
    (SkyProbe.mk "/d/102639/envmap.exr" (EnvironmentMap.mk "angular" []))
  = SkyInterval.reftime
      (SkyProbe.mk "/d/102639_retake/envmap.exr"
                   (EnvironmentMap.mk "angular" [])).
Proof.
  apply (reftime_reads_six_characters _ _ "102639" "102639_retake");
    reflexivity.
Defined.

(** ** More on the nearest-time lookup *)

Lemma closestProbe_nearest (fs : FS.t) (path : string) (iv : SkyInterval.t)
      (h m s : Z) :
  SkyInterval.init fs path = Ok iv ->
  SkyInterval.probes iv <> [] ->
  valid_time h m s ->
  exists (p : SkyProbe.t) (t : Datetime.t),
    SkyInterval.closestProbe iv h m s = Ok p
    /\ In p (SkyInterval.probes iv)
    /\ In t (SkyInterval.reftimes iv)
    /\ SkyInterval.reftime p = Ok t
    /\ (forall u, In u (SkyInterval.reftimes iv) ->
                  tod_distance h m s t <= tod_distance h m s u).
Proof.
  intros Hinit Hne Hvalid.
  pose proof (init_parallel _ _ _ Hinit) as Hlen.
  pose proof (init_reftimes_date _ _ _ Hinit) as Hdate.
  apply init_fields in Hinit as (_ & _ & Hmap).
  rewrite Forall_forall in Hdate.
  unfold SkyInterval.closestProbe. rewrite (make_valid _ _ _ Hvalid).
  cbn [bind].
  set (dist := fun t => Z.abs (Datetime.sub_total_seconds
                                 (Datetime.mk 1 1 1 h m s) t)).
  assert (Hdist : forall u, In u (SkyInterval.reftimes iv) ->
                            dist u = tod_distance h m s u)
    by (intros u Hu; now apply same_date_distance, Hdate).
  destruct (argmin_nonempty (map dist (SkyInterval.reftimes iv))) as [k Hk].
  { destruct (SkyInterval.reftimes iv); [| discriminate].
    destruct (SkyInterval.probes iv); [congruence | discriminate]. }
  rewrite Hk. cbn [bind].
  apply argmin_first_min in Hk as (Hk0 & v & Hmin).
  apply first_min_at_map in Hmin as (t & Ht & _ & Hle & _).
  destruct (nth_error (SkyInterval.probes iv) (Z.to_nat k)) as [p |] eqn:Hp.
  2:{ apply nth_error_None in Hp.
      assert ((Z.to_nat k < List.length (SkyInterval.reftimes iv))%nat)
        by (apply nth_error_Some; congruence).
      lia. }
  destruct (mapM_nth_error _ _ _ _ _ Hmap Hp) as (t' & Ht' & Hpt).
  assert (t' = t) by congruence. subst t'.
  exists p, t. repeat split.
  - now apply getitem_nth_error.
  - eapply nth_error_In; eauto.
  - eapply nth_error_In; eauto.
  - assumption.
  - intros u Hu. destruct (In_nth_error _ _ Hu) as (j & Hj).
    rewrite <- (Hdist _ (nth_error_In _ _ Ht)), <- (Hdist _ Hu). eauto.
Qed.

Lemma init_reftimes_valid (fs : FS.t) (path : string) (iv : SkyInterval.t) :
  SkyInterval.init fs path = Ok iv ->
  Forall (fun t => valid_time (Datetime.hour t) (Datetime.minute t)
                              (Datetime.second t))
         (SkyInterval.reftimes iv).
Proof.
  intros H. apply init_fields in H as (_ & _ & H).
  revert H. apply mapM_Forall. exact reftime_valid.
Qed.

(** A query for the very time of one of the probes is answered by a
    probe of exactly that time. *)
Theorem closestProbe_exact_hit
        (fs : FS.t) (path : string) (iv : SkyInterval.t) (u : Datetime.t) :
  SkyInterval.init fs path = Ok iv ->
  In u (SkyInterval.reftimes iv) ->
  exists (p : SkyProbe.t) (t : Datetime.t),
    SkyInterval.closestProbe iv (Datetime.hour u) (Datetime.minute u)
                             (Datetime.second u) = Ok p
    /\ In p (SkyInterval.probes iv)
    /\ SkyInterval.reftime p = Ok t
    /\ (Datetime.hour t, Datetime.minute t, Datetime.second t)
       = (Datetime.hour u, Datetime.minute u, Datetime.second u).
Proof.
  intros Hinit Hu.
  pose proof (init_reftimes_valid _ _ _ Hinit) as Hvalid.
  rewrite Forall_forall in Hvalid.
  pose proof (Hvalid _ Hu) as Hvu.
  assert (Hne : SkyInterval.probes iv <> []).
  { pose proof (init_parallel _ _ _ Hinit) as Hlen. intros E.
    rewrite E in Hlen. destruct (SkyInterval.reftimes iv); [destruct Hu |].
    discriminate. }
  destruct (closestProbe_nearest _ _ _ _ _ _ Hinit Hne Hvu)
    as (p & t & Hcall & Hp & Ht & Hpt & Hmin).
  exists p, t. repeat split; try assumption.
  specialize (Hmin _ Hu). pose proof (Hvalid _ Ht) as Hvt.
  unfold tod_distance, Datetime.seconds_of_day, valid_time in *.
  assert (Datetime.hour t = Datetime.hour u
          /\ Datetime.minute t = Datetime.minute u
          /\ Datetime.second t = Datetime.second u) as (-> & -> & ->) by lia.
  reflexivity.
Qed.

Lemma closestProbe_exact_hit_witness :
  exists (p : SkyProbe.t) (t : Datetime.t),
    SkyInterval.closestProbe Sample.day_interval 15 0 0 = Ok p
    /\ In p (SkyInterval.probes Sample.day_interval)
    /\ SkyInterval.reftime p = Ok t
    /\ (Datetime.hour t, Datetime.minute t, Datetime.second t) = (15, 0, 0).
Proof.
  apply (closestProbe_exact_hit Sample.day_fs "/root/20130619"
           Sample.day_interval (Datetime.mk 1 1 1 15 0 0)).
  - vm_compute. reflexivity.
  - simpl. auto.
Defined.

(** ** More on sun visibility and tone mapping *)

Lemma tmoGamma_map (rpow : Q -> Q -> Q) (p : SkyProbe.t) (gamma scale : Q) :
  ~ (gamma == 0)%Q ->
  SkyProbe.tmoGamma rpow p gamma scale
  = (m <- Np.min (SkyProbe.pictureHDR p) ;;
     Ok (map (spec_gamma_pixel rpow gamma scale m) (SkyProbe.pictureHDR p))).
Proof.
  intros Hg. unfold SkyProbe.tmoGamma, SkyProbe.pictureHDR.
  rewrite (Qeq_bool_false _ _ Hg).
  destruct (Np.min (EnvironmentMap.data (SkyProbe.envmap p))) as [m | e];
    simpl; [| reflexivity].
  now rewrite !map_map.
Qed.

(** [tmoGamma] fails in two ways, the buffer being looked at first: an
    empty buffer raises the [ValueError] of [min()] whatever the gamma, and
    on a non-empty buffer a gamma of 0 raises [ZeroDivisionError];
    otherwise it returns as many bytes as there are pixels. *)
Theorem tmoGamma_failures
        (rpow : Q -> Q -> Q) (p : SkyProbe.t) (gamma scale : Q) :
  (SkyProbe.pictureHDR p = [] ->
   SkyProbe.tmoGamma rpow p gamma scale = Raise (Np.zero_size "minimum"))
  /\ (SkyProbe.pictureHDR p <> [] -> (gamma == 0)%Q ->
      SkyProbe.tmoGamma rpow p gamma scale = Raise ZeroDivisionError)
  /\ (SkyProbe.pictureHDR p <> [] -> ~ (gamma == 0)%Q ->
      exists out,
        SkyProbe.tmoGamma rpow p gamma scale = Ok out
        /\ List.length out = List.length (SkyProbe.pictureHDR p)).
Proof.
  unfold SkyProbe.pictureHDR. repeat split.
  - intros H. unfold SkyProbe.tmoGamma. now rewrite H.
  - intros Hne Hg. unfold SkyProbe.tmoGamma.
    destruct (EnvironmentMap.data (SkyProbe.envmap p)); [congruence |].
    cbn [Np.min bind]. now rewrite (Qeq_eq_bool _ _ Hg).
  - intros Hne Hg. rewrite (tmoGamma_map _ _ _ _ Hg).
    unfold SkyProbe.pictureHDR.
    destruct (EnvironmentMap.data (SkyProbe.envmap p)) as [| x r];
      [congruence |].
    cbn [Np.min bind]. eexists. split; [reflexivity |].
    now rewrite length_map.
Qed.

(** With a negative gamma and a positive scale a pixel of minimum value
    comes out as 255: zero to a negative power is infinite, and the clip
    brings it down to the top of the range. *)
Theorem tmoGamma_negative_gamma
        (rpow : Q -> Q -> Q) (p : SkyProbe.t) (gamma scale : Q)
        (m : Q) (out : list Z) (i : nat) (x : Q) :
  (gamma < 0)%Q -> (0 < scale)%Q ->
  Np.min (SkyProbe.pictureHDR p) = Ok m ->
  SkyProbe.tmoGamma rpow p gamma scale = Ok out ->
  nth_error (SkyProbe.pictureHDR p) i = Some x ->
  (x == m)%Q ->
  nth_error out i = Some 255.
Proof.
  intros Hg Hs Hm Hout Hi Hx.
  rewrite tmoGamma_map, Hm in Hout by (intros E; rewrite E in Hg; discriminate).
  cbn [bind] in Hout. injection Hout as <-.
  rewrite nth_error_map, Hi. cbn [option_map]. f_equal.
  unfold spec_gamma_pixel, Np.power.
  assert (He : (1 / gamma < 0)%Q).
  { unfold Qdiv. rewrite Qmult_1_l.
    apply Qnot_le_lt. intros H.
    assert (H0 : (0 <= gamma)%Q).
    { destruct (Qlt_le_dec 0 (/ gamma)) as [Hpos | Hle].
      - apply Qinv_lt_0_compat in Hpos. rewrite Qinv_involutive in Hpos.
        now apply Qlt_le_weak.
      - assert (E : (/ gamma == 0)%Q) by now apply Qle_antisym.
        assert (E' : (gamma == 0)%Q)
          by (rewrite <- (Qinv_involutive gamma), E; reflexivity).
        rewrite E'. apply Qle_refl. }
    now apply (Qlt_not_le _ _ Hg). }
  assert (E1 : Qeq_bool (1 / gamma) 0 = false)
    by (apply Qeq_bool_false; intros E; rewrite E in He; discriminate).
  assert (E2 : Qeq_bool (x - m) 0 = true)
    by (apply Qeq_bool_iff; rewrite Hx; ring).
  assert (E3 : Np.Qltb 0 (1 / gamma) = false)
    by (apply Qltb_ge; now apply Qlt_le_weak).
  rewrite E1, E2, E3. cbn [Np.mul].
  assert (E4 : Np.Qltb 0 scale = true) by now apply Qltb_lt.
  rewrite E4. reflexivity.
Qed.

Lemma tmoGamma_negative_gamma_witness :
  nth_error [5; 255; 10] 1 = Some 255.
Proof.
  apply (tmoGamma_negative_gamma Sample.integer_power Sample.probe_312
           (-1) 10 1 [5; 255; 10] 1 1);
    reflexivity.
Defined.

(** A radiance of exactly -1 divides by zero in [tmoReinhard2002]; that
    raises nothing: the pixel comes out as 0 at a positive scale and as
    255 at a negative one. *)
Theorem tmoReinhard2002_pole (p : SkyProbe.t) (s : Q) (i : nat) (L : Q) :
  nth_error (SkyProbe.pictureHDR p) i = Some L ->
  (L == -1)%Q ->
  ((0 < s)%Q -> nth_error (SkyProbe.tmoReinhard2002 p s) i = Some 0)
  /\ ((s < 0)%Q -> nth_error (SkyProbe.tmoReinhard2002 p s) i = Some 255).
Proof.
  intros Hi HL. rewrite tmoReinhard2002_map, nth_error_map, Hi.
  cbn [option_map]. unfold spec_reinhard_pixel, Np.div.
  assert (E : Qeq_bool (1 + L) 0 = true)
    by (apply Qeq_bool_iff; rewrite HL; reflexivity).
  rewrite E. split; intros Hs.
  - assert (E2 : Np.Qltb 0 (s * L) = false)
      by (apply Qltb_ge; rewrite HL; lra).
    assert (E3 : Np.Qltb (s * L) 0 = true)
      by (apply Qltb_lt; rewrite HL; lra).
    now rewrite E2, E3.
  - assert (E2 : Np.Qltb 0 (s * L) = true)
      by (apply Qltb_lt; rewrite HL; lra).
    now rewrite E2.
Qed.

Lemma tmoReinhard2002_pole_witness :
  ((0 < 700)%Q ->
   nth_error (SkyProbe.tmoReinhard2002 (Sample.probe_of [3; -1]%Q) 700) 1
   = Some 0)
  /\ ((700 < 0)%Q ->
      nth_error (SkyProbe.tmoReinhard2002 (Sample.probe_of [3; -1]%Q) 700) 1
      = Some 255).
Proof.
  apply (tmoReinhard2002_pole (Sample.probe_of [3; -1]%Q) 700 1 (-1));
    reflexivity.
Defined.

(** In a constructed database the date of every interval is the name of
    the subdirectory it was built from. *)
Theorem database_dates
        (fs : FS.t) (path : string) (db : SkyDB.t) (iv : SkyInterval.t) :
  SkyDB.init fs path = Ok db ->
  In iv (SkyDB.intervals db) ->
  exists names f,
    FS.listdir fs (Path.abspath (FS.cwd fs) path) = Ok names
    /\ In f names
    /\ FS.isdir fs (Path.join (Path.abspath (FS.cwd fs) path) f) = true
    /\ SkyInterval.path iv = Path.join (Path.abspath (FS.cwd fs) path) f
    /\ (plain_name f -> SkyInterval.date iv = Ok f).
Proof.
  unfold SkyDB.init. intros H Hiv.
  apply bind_Ok_inv in H as (names & Hls & H).
  apply bind_Ok_inv in H as (ivs & Hivs & H).
  injection H as <-. cbn [SkyDB.intervals] in Hiv.
  destruct (mapM_In _ _ _ _ Hivs Hiv) as (d & Hd & Hinit).
  apply in_map_iff in Hd as (f & <- & Hf).
  apply filter_In in Hf as (Hf & Hdir).
  apply init_fields in Hinit as (Hp & _).
  exists names, f. repeat split; try assumption.
  intros Hplain. unfold SkyInterval.date. rewrite Hp.
  now apply last_component_join.
Qed.

Lemma database_dates_witness :
  exists names f,
    FS.listdir Sample.day_fs (Path.abspath (FS.cwd Sample.day_fs) "root")
    = Ok names
    /\ In f names
    /\ FS.isdir Sample.day_fs
                (Path.join (Path.abspath (FS.cwd Sample.day_fs) "root") f)
       = true
    /\ SkyInterval.path Sample.day_interval
       = Path.join (Path.abspath (FS.cwd Sample.day_fs) "root") f
    /\ (plain_name f -> SkyInterval.date Sample.day_interval = Ok f).
Proof.
  apply (database_dates Sample.day_fs "root"
           (SkyDB.mk ["/root/20130619"; "/root/20130620"]
                     [Sample.day_interval; Sample.empty_interval])).
  - vm_compute. reflexivity.
  - simpl. auto.
Defined.
